(** * Worksheet intake queue and batch worker: a shallow embedding

    The development follows the JavaScript sources of the intake tool:
    - [Id]           : [tool-a-intake/src/id.js]
    - [FsJson]       : [tool-a-intake/src/fs-json.js]
    - [Storage]      : the storage root (metadata, pending list, intake)
                       and asynchronous operations on it
    - [Repository]   : [tool-a-intake/src/repository.js]
    - [Config]       : the environment the queue script reads
    - [Supervisor]   : the [run] process supervisor of the queue script
    - [ProcessQueue] : the queue-processing script (job discovery, claim,
                       failure bookkeeping and the batch loop)
    - [Upload]       : the intake server's validation of an upload's fields
    - [Listing]      : the intake server's list of worksheets
    - [Workspace]    : the queue script's guardrails on a worksheet
                       project and the scan of its built output

    JavaScript strings are modelled as sequences of 8-bit code units
    ([string]); finite numbers that the program stores are integers ([Z]);
    objects are finite maps from property names to values. Times come from
    the caller: [Date.now()] and [new Date().toISOString()] are arguments.
    The properties are stated and proved in the second part of the file. *)

From Stdlib Require Import ZArith QArith Qround Ascii String List Lia Bool.
From Stdlib Require Strings.Byte.
From stdpp Require Import base option list gmap strings fin_maps.

Set Warnings "-register-all".
Local Open Scope string_scope.
Local Open Scope Z_scope.

(** ** JavaScript strings and characters *)
Module JsString.

Definition chars (s : string) : list ascii := list_ascii_of_string s.
Definition of_chars (l : list ascii) : string := string_of_list_ascii l.

Definition code (c : ascii) : N := N_of_ascii c.

Definition in_range (lo hi c : ascii) : bool :=
  ((code lo <=? code c) && (code c <=? code hi))%N.

(** White space and line terminators inside the 8-bit range: TAB, LF, VT,
    FF, CR, SPACE and NBSP. *)
Definition is_space (c : ascii) : bool :=
  ((9 <=? code c) && (code c <=? 13) || (code c =? 32) || (code c =? 160))%N.

Definition is_digit (c : ascii) : bool := in_range "0" "9" c.
Definition is_lower (c : ascii) : bool := in_range "a" "z" c.
Definition is_upper (c : ascii) : bool := in_range "A" "Z" c.

(** Case canonicalisation of a non-unicode, ignore-case RegExp, on the
    ASCII letters (a code unit above 127 never folds onto an ASCII one). *)
Definition canonicalize (c : ascii) : ascii :=
  if is_lower c then ascii_of_N (code c - 32) else c.

Definition eqb_ci (a b : ascii) : bool :=
  Ascii.eqb (canonicalize a) (canonicalize b).

Fixpoint drop_spaces (l : list ascii) : list ascii :=
  match l with
  | c :: l' => if is_space c then drop_spaces l' else l
  | [] => []
  end.

(** [String.prototype.trim] *)
Definition trim_chars (l : list ascii) : list ascii :=
  rev (drop_spaces (rev (drop_spaces l))).

Definition trim (s : string) : string := of_chars (trim_chars (chars s)).

Definition is_empty (s : string) : bool :=
  match s with EmptyString => true | _ => false end.

Fixpoint join (sep : string) (l : list string) : string :=
  match l with
  | [] => ""
  | [x] => x
  | x :: l' => x +:+ sep +:+ join sep l'
  end.

Definition endsWith (s suffix : string) : bool :=
  let n := String.length s in
  let k := String.length suffix in
  (k <=? n)%nat && String.eqb (substring (n - k) k s) suffix.

End JsString.

(** ** Regular expressions, matched by derivatives *)
Module Regex.
Import JsString.

Inductive Regex : Type :=
| Empty
| Eps
| Chr (p : ascii -> bool)
| Cat (r1 r2 : Regex)
| Alt (r1 r2 : Regex)
| Star (r : Regex).

(** The words of a regular expression. *)
Inductive lang : Regex -> list ascii -> Prop :=
| lang_eps : lang Eps []
| lang_chr p c : p c = true -> lang (Chr p) [c]
| lang_cat r1 r2 s1 s2 : lang r1 s1 -> lang r2 s2 -> lang (Cat r1 r2) (s1 ++ s2)
| lang_alt_l r1 r2 s : lang r1 s -> lang (Alt r1 r2) s
| lang_alt_r r1 r2 s : lang r2 s -> lang (Alt r1 r2) s
| lang_star_nil r : lang (Star r) []
| lang_star_cons r s1 s2 : lang r s1 -> lang (Star r) s2 -> lang (Star r) (s1 ++ s2).

Fixpoint nullable (r : Regex) : bool :=
  match r with
  | Empty => false
  | Eps => true
  | Chr _ => false
  | Cat r1 r2 => nullable r1 && nullable r2
  | Alt r1 r2 => nullable r1 || nullable r2
  | Star _ => true
  end.

(** Constructors that drop the dead branches a derivative leaves behind. *)
Definition cat (r1 r2 : Regex) : Regex :=
  match r1, r2 with
  | Empty, _ => Empty
  | _, Empty => Empty
  | Eps, _ => r2
  | _, _ => Cat r1 r2
  end.

Definition alt (r1 r2 : Regex) : Regex :=
  match r1, r2 with
  | Empty, _ => r2
  | _, Empty => r1
  | _, _ => Alt r1 r2
  end.

Fixpoint deriv (c : ascii) (r : Regex) : Regex :=
  match r with
  | Empty => Empty
  | Eps => Empty
  | Chr p => if p c then Eps else Empty
  | Cat r1 r2 =>
      alt (cat (deriv c r1) r2) (if nullable r1 then deriv c r2 else Empty)
  | Alt r1 r2 => alt (deriv c r1) (deriv c r2)
  | Star r1 => cat (deriv c r1) (Star r1)
  end.

(** The whole input is a word of [r]: a pattern anchored as [^r$]. *)
Fixpoint matches (r : Regex) (s : list ascii) : bool :=
  match s with
  | [] => nullable r
  | c :: s' => matches (deriv c r) s'
  end.

(** Some prefix of the input is a word of [r]. *)
Fixpoint matches_prefix (r : Regex) (s : list ascii) : bool :=
  nullable r ||
  match s with
  | [] => false
  | c :: s' => matches_prefix (deriv c r) s'
  end.

(** Some substring of the input is a word of [r]: an unanchored pattern. *)
Fixpoint search (r : Regex) (s : list ascii) : bool :=
  matches_prefix r s ||
  match s with
  | [] => false
  | _ :: s' => search r s'
  end.

(** [RegExp.prototype.test] for an anchored and for an unanchored pattern. *)
Definition test_anchored (r : Regex) (s : string) : bool := matches r (chars s).
Definition test (r : Regex) (s : string) : bool := search r (chars s).

(** *** Pattern syntax *)

Definition lit_i (c : ascii) : Regex := Chr (eqb_ci c).

Fixpoint seq_of (f : ascii -> Regex) (l : list ascii) : Regex :=
  match l with
  | [] => Eps
  | [c] => f c
  | c :: l' => Cat (f c) (seq_of f l')
  end.

(** A literal string under the ignore-case flag. *)
Definition str_i (s : string) : Regex := seq_of lit_i (chars s).

(** [\d], [\s] and a character range [lo-hi] under the ignore-case flag. *)
Definition digit : Regex := Chr is_digit.
Definition space : Regex := Chr is_space.
Definition range_i (lo hi : ascii) : ascii -> bool :=
  fun c => in_range lo hi c
           || in_range (canonicalize lo) (canonicalize hi) (canonicalize c).

(** [r{n}], [r+] and [r?] *)
Fixpoint rep (n : nat) (r : Regex) : Regex :=
  match n with
  | O => Eps
  | S O => r
  | S n' => Cat r (rep n' r)
  end.
Definition plus (r : Regex) : Regex := Cat r (Star r).
Definition opt (r : Regex) : Regex := Alt r Eps.

End Regex.

(** ** JavaScript values read from and written to JSON documents *)
Module Js.
Import JsString.

(** Parsed JSON. [JNum] holds the finite numbers, which the program only
    ever produces as integers; [JInf] is a number that overflowed to an
    infinity while parsing. A property that is absent reads as [None]
    ([undefined]). *)
Inductive Json : Type :=
| JNull
| JBool (b : bool)
| JNum (n : Z)
| JInf
| JStr (s : string)
| JArr (items : list Json)
| JObj (fields : gmap string Json).

Abbreviation Value := (option Json).
Abbreviation undefined := (@None Json).

(** Truthiness of a value, as used by [!x], [x || y] and [if (x)]. *)
Definition truthy (v : Value) : bool :=
  match v with
  | None | Some JNull => false
  | Some (JBool b) => b
  | Some (JNum n) => negb (n =? 0)
  | Some (JStr s) => negb (is_empty s)
  | Some JInf | Some (JArr _) | Some (JObj _) => true
  end.

(** [a || b] *)
Definition or_else (a b : Value) : Value := if truthy a then a else b.

(** [Number.isFinite(v)], with the number when it is one. *)
Definition finite (v : Value) : option Z :=
  match v with Some (JNum n) => Some n | _ => None end.

(** [typeof v === "string"], with the string when it is one. *)
Definition as_string (v : Value) : option string :=
  match v with Some (JStr s) => Some s | _ => None end.

(** [v === s] for a string [s]. *)
Definition strict_eq_str (v : Value) (s : string) : bool :=
  match v with Some (JStr t) => String.eqb t s | _ => false end.

(** Property read [v.k] on a value that is neither [null] nor [undefined]:
    primitives and arrays have none of the properties the program reads. *)
Definition get (v : Json) (k : string) : Value :=
  match v with JObj o => o !! k | _ => None end.

(** Decimal digits of a non-negative integer. *)
Fixpoint digits_fuel (fuel : nat) (n : Z) : list ascii :=
  match fuel with
  | O => []
  | S f =>
      let d := ascii_of_N (48 + Z.to_N (n mod 10)) in
      if n <? 10 then [d] else digits_fuel f (n / 10) ++ [d]
  end.

Definition digits (n : Z) : list ascii := digits_fuel (S (Z.to_nat (Z.log2 n))) n.

(** [String(n)] for an integer [n]. *)
Definition string_of_Z (n : Z) : string :=
  if n <? 0 then String "-" (of_chars (digits (- n))) else of_chars (digits n).

(** [String(v)]; an array joins the strings of its items with commas,
    [null] and [undefined] items giving the empty string. *)
Fixpoint string_of_json (v : Json) : string :=
  match v with
  | JNull => "null"
  | JBool true => "true"
  | JBool false => "false"
  | JNum n => string_of_Z n
  | JInf => "Infinity"
  | JStr s => s
  | JArr items =>
      join "," (map (fun i => match i with
                              | JNull => ""
                              | _ => string_of_json i
                              end) items)
  | JObj _ => "[object Object]"
  end.

Definition to_string (v : Value) : string :=
  match v with None => "undefined" | Some j => string_of_json j end.

(** Errors that the program throws or lets through. [code] is the
    [error.code] of a file-system error. *)
Record Error : Type := mkError {
  err_name : string;
  err_message : string;
  err_code : option string
}.

Definition new_Error (msg : string) : Error := mkError "Error" msg None.
Definition TypeError (msg : string) : Error := mkError "TypeError" msg None.
Definition SyntaxError (msg : string) : Error := mkError "SyntaxError" msg None.
Definition fs_error (c : string) : Error := mkError "Error" c (Some c).

(** [Error.prototype.toString] *)
Definition error_to_string (e : Error) : string :=
  if is_empty (err_message e) then err_name e
  else if is_empty (err_name e) then err_message e
  else err_name e +:+ ": " +:+ err_message e.

(** The outcome of a call: a value or a thrown error. *)
Inductive Res (A : Type) : Type :=
| Ok (a : A)
| Throw (e : Error).
Arguments Ok {A} a.
Arguments Throw {A} e.

Definition bind {A B} (m : Res A) (k : A -> Res B) : Res B :=
  match m with Ok a => k a | Throw e => Throw e end.

#[export] Instance Res_ret : MRet Res := fun A a => Ok a.
#[export] Instance Res_bind : MBind Res := fun A B k m => bind m k.

Definition is_ok {A} (m : Res A) : bool :=
  match m with Ok _ => true | Throw _ => false end.

(** [try { m } catch { }] around a loop that fills [acc]: what was
    collected when the error was thrown is kept. *)
Definition catch_all {A} (m : Res A) (fallback : A) : A :=
  match m with Ok a => a | Throw _ => fallback end.

End Js.

(** ** Worksheet identifiers ([id.js]) *)
Module Id.
Import JsString Regex Js.

(** A [Date], seen through its UTC getters: an invalid date answers [NaN]
    to each of them. [month] is zero-based, as [getUTCMonth] returns it. *)
Inductive Date : Type :=
| InvalidDate
| UtcDate (year month day : Z).

(** A number that may be [NaN]. *)
Abbreviation Num := (option Z).

Definition getUTCFullYear (d : Date) : Num :=
  match d with InvalidDate => None | UtcDate y _ _ => Some y end.
Definition getUTCMonth (d : Date) : Num :=
  match d with InvalidDate => None | UtcDate _ m _ => Some m end.
Definition getUTCDate (d : Date) : Num :=
  match d with InvalidDate => None | UtcDate _ _ d => Some d end.

Definition num_add (a : Num) (b : Z) : Num := (fun x => x + b) <$> a.

Definition string_of_num (a : Num) : string :=
  match a with None => "NaN" | Some n => string_of_Z n end.

(** [s.padStart(n, "0")] *)
Definition padStart0 (n : nat) (s : string) : string :=
  of_chars (repeat "0"%char (n - String.length s)) +:+ s.

Definition formatUtcDate (now : Date) : string :=
  let year := getUTCFullYear now in
  let month := padStart0 2 (string_of_num (num_add (getUTCMonth now) 1)) in
  let day := padStart0 2 (string_of_num (getUTCDate now)) in
  string_of_num year +:+ month +:+ day.

Definition hex_digit (n : N) : ascii :=
  if (n <? 10)%N then ascii_of_N (48 + n) else ascii_of_N (87 + n).

(** [buffer.toString("hex")] *)
Definition hex_of_byte (b : Byte.byte) : list ascii :=
  let n := Byte.to_N b in
  [hex_digit (n / 16); hex_digit (n mod 16)].

Definition toString_hex (buf : list Byte.byte) : string :=
  of_chars (concat (map hex_of_byte buf)).

(** [generateWorksheetId(now)]; [random4] is the buffer that
    [crypto.randomBytes(4)] returns. *)
Definition generateWorksheetId (now : Date) (random4 : list Byte.byte) : string :=
  let datePart := formatUtcDate now in
  let randomPart := substring 0 6 (toString_hex random4) in
  "ws_" +:+ datePart +:+ "_" +:+ randomPart.

(** [/^ws_\d{8}_[a-f0-9]{6}$/i] *)
Definition worksheetIdPattern : Regex :=
  Cat (str_i "ws_")
      (Cat (rep 8 digit)
           (Cat (lit_i "_")
                (rep 6 (Chr (fun c => range_i "a" "f" c || range_i "0" "9" c))))).

Definition isWorksheetId (value : Value) : bool :=
  match as_string value with
  | Some s => test_anchored worksheetIdPattern s
  | None => false
  end.

(** *** The shapes of an identifier *)




End Id.

(** ** The atomic store ([fs-json.js]) *)
Module FsJson.
Import JsString Js.

(** The text of a file, up to what [JSON.parse] makes of it. *)
Inductive Text : Type :=
| NotJson (raw : string)
| Serialised (v : Json).

(** Failures of a read other than the absence of the path. *)
Inductive IoFailure : Type := EACCES | EPERM | EIO | EMFILE.

Definition io_code (c : IoFailure) : string :=
  match c with
  | EACCES => "EACCES" | EPERM => "EPERM" | EIO => "EIO" | EMFILE => "EMFILE"
  end.

(** What a path resolves to, when it resolves to something. *)
Inductive Node : Type :=
| Folder
| Denied (c : IoFailure)
| File (t : Text).

(** [fs.readFile(path, "utf8")] on what [path] resolves to. *)
Definition readFile (at_path : option Node) : Res Text :=
  match at_path with
  | None => Throw (fs_error "ENOENT")
  | Some Folder => Throw (fs_error "EISDIR")
  | Some (Denied c) => Throw (fs_error (io_code c))
  | Some (File t) => Ok t
  end.

Definition JSON_parse (t : Text) : Res Json :=
  match t with
  | NotJson _ => Throw (SyntaxError "Unexpected token in JSON")
  | Serialised v => Ok v
  end.

Definition JSON_stringify (v : Json) : Text := Serialised v.

Definition code_is (e : Error) (c : string) : bool :=
  match err_code e with Some c' => String.eqb c' c | None => false end.

Definition readJson (at_path : option Node) (fallback : Json) : Res Json :=
  match raw ← readFile at_path; JSON_parse raw with
  | Ok v => Ok v
  | Throw error => if code_is error "ENOENT" then Ok fallback else Throw error
  end.

(** The node that [writeJsonAtomic(path, value)] leaves at [path]: the
    temporary file is renamed over it in one step. *)
Definition writeJsonAtomic (value : Json) : Node := File (JSON_stringify value).

(** [fs.access] succeeds on whatever the path resolves to. *)
Definition fileExists (at_path : option Node) : bool :=
  match at_path with Some _ => true | None => false end.

Definition isFile (n : Node) : bool :=
  match n with Folder => false | _ => true end.

End FsJson.

(** ** The storage root, and operations on it *)
Module Storage.
Import JsString Js FsJson.

(** The stored archive of a worksheet; [mtime] is the ISO time [fs.stat]
    reports, when it reports one. *)
Record Artifact : Type := mkArtifact { mtime : option string }.

(** An entry of [intake/]: a worksheet folder, with [original.zip] or
    without, or something that is not a directory. *)
Inductive IntakeEntry : Type :=
| StrayFile
| WorksheetDir (zip : option Artifact).

(** [metadata/<name>], [queue/pending.json] and [intake/<name>]; the two
    [readdir] fields hold the failure of listing the directory, if any. *)
Record Store : Type := mkStore {
  metadata : gmap string Node;
  queue : option Node;
  intake : gmap string IntakeEntry;
  metadata_readdir : option IoFailure;
  intake_readdir : option IoFailure
}.

Definition set_metadata (name : string) (n : Node) (s : Store) : Store :=
  mkStore (<[name := n]> (metadata s)) (queue s) (intake s)
          (metadata_readdir s) (intake_readdir s).
Definition set_queue (n : Node) (s : Store) : Store :=
  mkStore (metadata s) (Some n) (intake s) (metadata_readdir s) (intake_readdir s).
Definition set_intake (name : string) (e : IntakeEntry) (s : Store) : Store :=
  mkStore (metadata s) (queue s) (<[name := e]> (intake s))
          (metadata_readdir s) (intake_readdir s).

(** [path.join(metadataDir, `${worksheetId}.json`)], as a name in [metadata/]. *)
Definition metadata_name (worksheetId : string) : string := worksheetId +:+ ".json".

(** An asynchronous operation on the store: it ends with a value or a
    thrown error, and what it wrote before throwing stays written. *)
Definition M (A : Type) : Type := Store -> Res A * Store.

Definition ret {A} (a : A) : M A := fun s => (Ok a, s).
Definition throw {A} (e : Error) : M A := fun s => (Throw e, s).
Definition bind {A B} (m : M A) (k : A -> M B) : M B :=
  fun s => match m s with
           | (Ok a, s') => k a s'
           | (Throw e, s') => (Throw e, s')
           end.
Definition lift {A} (r : Res A) : M A := fun s => (r, s).
Definition gets {A} (f : Store -> A) : M A := fun s => (Ok (f s), s).
Definition modify (f : Store -> Store) : M unit := fun s => (Ok tt, f s).
Definition try_catch {A} (m : M A) (handler : Error -> M A) : M A :=
  fun s => match m s with
           | (Ok a, s') => (Ok a, s')
           | (Throw e, s') => handler e s'
           end.

#[export] Instance M_ret : MRet M := @ret.
#[export] Instance M_bind : MBind M := fun A B k m => bind m k.

Definition read_metadata (worksheetId : string) (fallback : Json) : M Json :=
  fun s => (readJson (metadata s !! metadata_name worksheetId) fallback, s).
Definition read_queue (fallback : Json) : M Json :=
  fun s => (readJson (queue s) fallback, s).
Definition write_metadata (worksheetId : string) (value : Json) : M unit :=
  modify (set_metadata (metadata_name worksheetId) (writeJsonAtomic value)).
Definition write_queue (value : Json) : M unit :=
  modify (set_queue (writeJsonAtomic value)).

(** *** Objects *)

Definition index_key (i : nat) : string := string_of_Z (Z.of_nat i).

(** The own enumerable properties [{...v}] copies. *)
Definition spread (v : Json) : gmap string Json :=
  match v with
  | JObj o => o
  | JArr items => list_to_map (imap (fun i x => (index_key i, x)) items)
  | JStr s =>
      list_to_map (imap (fun i c => (index_key i, JStr (String c ""))) (chars s))
  | _ => ∅
  end.

(** [{...a, ...b}] *)
Definition merge_objects (a b : gmap string Json) : gmap string Json := b ∪ a.

(** An object literal: a property whose value is [undefined] does not
    reach the serialised document. *)
Fixpoint object_of (props : list (string * Value)) : gmap string Json :=
  match props with
  | [] => ∅
  | (k, Some v) :: rest => <[k := v]> (object_of rest)
  | (_, None) :: rest => object_of rest
  end.

(** [v.k] where [v] may be [null]: reading a property of [null] throws. *)
Definition get_strict (v : Json) (k : string) : Res Value :=
  match v with
  | JNull => Throw (TypeError ("Cannot read properties of null (reading '" +:+ k +:+ "')"))
  | _ => Ok (get v k)
  end.

(** [v?.k] *)
Definition get_opt (v : Value) (k : string) : Value :=
  match v with
  | None | Some JNull => None
  | Some j => get j k
  end.

(** [x ?? null] and [x || null] *)
Definition nullish_or_null (v : Value) : Json := default JNull v.
Definition or_null (v : Value) : Json := if truthy v then default JNull v else JNull.

(** The pending-list document [{ jobs: [] }] *)
Definition empty_queue : Json := JObj {[ "jobs" := JArr [] ]}.

(** [queue.jobs] when it is an array, after
    [if (!Array.isArray(queue.jobs)) queue.jobs = []]: the modules run in
    strict mode, where creating a property on a primitive throws. *)
Definition jobs_or_reset (queue : Json) : Res (list Json) :=
  jobs ← get_strict queue "jobs";
  match jobs with
  | Some (JArr l) => Ok l
  | _ =>
      match queue with
      | JObj _ | JArr _ => Ok []
      | _ => Throw (TypeError "Cannot create property 'jobs'")
      end
  end.

(** The document written back after [queue.jobs] was replaced: a property
    set on an array is not serialised. *)
Definition with_jobs (queue : Json) (jobs : list Json) : Json :=
  match queue with
  | JObj o => JObj (<["jobs" := JArr jobs]> o)
  | other => other
  end.

End Storage.

(** ** The job repository ([repository.js]) *)
Module Repository.
Import JsString Js FsJson Storage.

(** [ensureStorageLayout]: the directories exist afterwards, and the
    pending list is created empty when it is absent. *)
Definition ensureStorageLayout : M unit :=
  exists_queue ← gets (fun s => fileExists (queue s));
  if exists_queue : bool then ret tt else write_queue empty_queue.

(** The arguments of [enqueueUploadedWorksheet]; [tempFile] is what
    [tempFilePath] resolves to and [uploadedAt] the time
    [new Date().toISOString()] gives during the call. *)
Record EnqueueArgs : Type := mkEnqueueArgs {
  worksheetId : string;
  title : Value;
  ownerEmail : Value;
  originalFilename : Value;
  tempFile : option Artifact;
  uploadedAt : string
}.

(** [ensureDir(worksheetDir)] then [moveFileSafe(tempFilePath, ...)] *)
Definition store_artifact (id : string) (tempFile : option Artifact) : M unit :=
  existing ← gets (fun s => intake s !! id);
  match existing with
  | Some StrayFile => throw (fs_error "EEXIST")
  | _ =>
      _ ← match existing with
          | None => modify (set_intake id (WorksheetDir None))
          | _ => ret tt
          end;
      match tempFile with
      | None => throw (fs_error "ENOENT")
      | Some artifact => modify (set_intake id (WorksheetDir (Some artifact)))
      end
  end.

Definition new_metadata (id : string) (title ownerEmail originalFilename : Value)
    (uploadedAt : string) : gmap string Json :=
  object_of [
    ("worksheet_id", Some (JStr id));
    ("title", title);
    ("owner_email", ownerEmail);
    ("original_filename", originalFilename);
    ("artifact_path", Some (JStr ("storage/intake/" +:+ id +:+ "/original.zip")));
    ("state", Some (JStr "queued"));
    ("uploaded_at", Some (JStr uploadedAt));
    ("integrated_at", Some JNull);
    ("last_error", Some JNull)
  ].

Definition nextJob (id uploadedAt : string) : gmap string Json :=
  object_of [
    ("worksheet_id", Some (JStr id));
    ("state", Some (JStr "queued"));
    ("attempts", Some (JNum 0));
    ("queued_at", Some (JStr uploadedAt))
  ].

(** [jobs.findIndex((job) => job.worksheet_id === worksheetId)] *)
Fixpoint findIndex (jobs : list Json) (id : string) : Res (option nat) :=
  match jobs with
  | [] => Ok None
  | job :: rest =>
      w ← get_strict job "worksheet_id";
      if strict_eq_str w id then Ok (Some O)
      else i ← findIndex rest id; Ok (option_map S i)
  end.

(** The upsert of the pending entry, on the array of jobs. *)
Definition upsert_job (jobs : list Json) (id uploadedAt : string) : Res (list Json) :=
  existingIndex ← findIndex jobs id;
  match existingIndex with
  | Some i =>
      Ok (alter (fun existing =>
                   JObj (merge_objects (spread existing) (nextJob id uploadedAt)))
                i jobs)
  | None => Ok (jobs ++ [JObj (nextJob id uploadedAt)])%list
  end.

(** [enqueueUploadedWorksheet]; calls on one storage root run one after
    the other, each after the previous one has settled. *)
Definition enqueueUploadedWorksheet (a : EnqueueArgs) : M Json :=
  let id := worksheetId a in
  _ ← store_artifact id (tempFile a);
  let metadata :=
    JObj (new_metadata id (title a) (ownerEmail a) (originalFilename a) (uploadedAt a)) in
  _ ← write_metadata id metadata;
  queue ← read_queue empty_queue;
  jobs ← lift (jobs_or_reset queue);
  jobs' ← lift (upsert_job jobs id (uploadedAt a));
  _ ← write_queue (with_jobs queue jobs');
  ret metadata.

(** [jobs.find((job) => job.worksheet_id === worksheetId)] *)
Fixpoint find_job (jobs : list Json) (id : string) : Res Value :=
  match jobs with
  | [] => Ok None
  | job :: rest =>
      w ← get_strict job "worksheet_id";
      if strict_eq_str w id then Ok (Some job) else find_job rest id
  end.

(** [typeof v === "string" && v.trim()], when that is truthy. *)
Definition trimmed_string (v : Value) : option string :=
  match as_string v with
  | Some s => let t := trim s in if is_empty t then None else Some t
  | None => None
  end.

Record Status : Type := mkStatus {
  status_worksheet_id : Value;
  status_state : string;
  status_uploaded_at : Json;
  status_integrated_at : Json;
  status_last_error : Json
}.

(** The pending entry of [id], as [getWorksheetStatus] looks it up:
    [null] when [queue.jobs] is not an array, [undefined] when no entry
    has the id. *)
Definition read_queue_entry (id : string) : M Value :=
  queue ← read_queue empty_queue;
  jobs ← lift (get_strict queue "jobs");
  lift match jobs with
       | Some (JArr l) => find_job l id
       | _ => Ok (Some JNull)
       end.

(** [getWorksheetStatus]; [None] is the [null] it returns. *)
Definition getWorksheetStatus (id : string) : M (option Status) :=
  exists_md ← gets (fun s => fileExists (metadata s !! metadata_name id));
  if negb exists_md then ret None else
  metadata ← read_metadata id JNull;
  if negb (truthy (Some metadata)) then ret None else
  queueEntry ← read_queue_entry id;
  let state :=
    match trimmed_string (get metadata "state") with
    | Some st => st
    | None =>
        match trimmed_string (get_opt queueEntry "state") with
        | Some st => st
        | None => "queued"
        end
    end in
  ret (Some (mkStatus (get metadata "worksheet_id") state
                      (or_null (get metadata "uploaded_at"))
                      (nullish_or_null (get metadata "integrated_at"))
                      (nullish_or_null (get metadata "last_error")))).

(** *** Reading the pending list *)

(** The jobs of the pending-list document, as stored. *)
Definition pending_jobs (s : Store) : list Json :=
  match queue s with
  | Some (File (Serialised (JObj o))) =>
      match o !! "jobs" with Some (JArr l) => l | _ => [] end
  | _ => []
  end.

(** [job.worksheet_id === id] *)
Definition is_entry_for (id : string) (job : Json) : bool :=
  strict_eq_str (get job "worksheet_id") id.

Definition entries_for (id : string) (jobs : list Json) : list Json :=
  List.filter (is_entry_for id) jobs.


(** The same without the condition on ids: what the code needs in order
    to read and rewrite the pending list. *)
Definition QueueWellFormed (s : Store) : Prop :=
  (queue s = None \/ exists o, queue s = Some (File (Serialised (JObj o))))
  /\ Forall (fun job => job <> JNull) (pending_jobs s).

(** A sequence of calls, each run after the previous one has settled,
    whether it returned or threw. *)
Definition enqueue_all (calls : list EnqueueArgs) (s : Store) : Store :=
  fold_left (fun s a => snd (enqueueUploadedWorksheet a s)) calls s.


(** The storage root before anything was enqueued. *)
Definition fresh_store : Store := mkStore ∅ (Some (File (Serialised empty_queue))) ∅ None None.

(** Two uploads under one worksheet id, as in the repository's tests. *)
Definition first_upload : EnqueueArgs :=
  mkEnqueueArgs "ws_20260228_c0ffee" (Some (JStr "First"))
    (Some (JStr "a@example.com")) (Some (JStr "worksheet-a.zip"))
    (Some (mkArtifact (Some "2026-02-28T10:00:00.000Z"))) "2026-02-28T10:00:00.000Z".
Definition second_upload : EnqueueArgs :=
  mkEnqueueArgs "ws_20260228_c0ffee" (Some (JStr "Second"))
    (Some (JStr "b@example.com")) (Some (JStr "worksheet-b.zip"))
    (Some (mkArtifact (Some "2026-02-28T10:01:00.000Z"))) "2026-02-28T10:01:00.000Z".

(** A metadata record whose [state] is a single space, beside a pending
    entry in state [failed]. *)
Definition blank_state_store : Store :=
  mkStore
    {[ "ws_20260228_feed01.json" :=
         File (Serialised (JObj (object_of [
           ("worksheet_id", Some (JStr "ws_20260228_feed01"));
           ("state", Some (JStr " "));
           ("uploaded_at", Some (JStr "2026-02-28T10:00:00.000Z"));
           ("integrated_at", Some JNull);
           ("last_error", Some JNull) ]))) ]}
    (Some (File (Serialised (JObj {[ "jobs" := JArr [
       JObj (object_of [
         ("worksheet_id", Some (JStr "ws_20260228_feed01"));
         ("state", Some (JStr "failed"));
         ("attempts", Some (JNum 1));
         ("queued_at", Some (JStr "2026-02-28T10:00:00.000Z")) ]) ] ]}))))
    ∅ None None.

(** The store of the repository's test of stale queue state: metadata in
    state [queued], the pending entry in state [failed]. *)
Definition stale_queue_store : Store :=
  mkStore
    {[ "ws_20260228_feed01.json" :=
         File (Serialised (JObj (object_of [
           ("worksheet_id", Some (JStr "ws_20260228_feed01"));
           ("state", Some (JStr "queued"));
           ("uploaded_at", Some (JStr "2026-02-28T10:00:00.000Z"));
           ("integrated_at", Some JNull);
           ("last_error", Some JNull) ]))) ]}
    (queue blank_state_store) ∅ None None.

End Repository.

(** ** The queue script: configuration helpers *)
Module Config.
Import JsString Regex Js.

(** The number [Number(x)] gives; finite numbers are rationals here. *)
Inductive Number : Type :=
| NaN
| Infinity (negative : bool)
| Finite (q : Q).

Definition parsePositiveInt (num : Number) (fallback : Z) : Z :=
  match num with
  | Finite q => if Qle_bool q 0 then fallback else Qfloor q
  | _ => fallback
  end.

(** [/^(0|false|no|off)$/i] *)
Definition falsyEnvPattern : Regex :=
  Alt (str_i "0") (Alt (str_i "false") (Alt (str_i "no") (str_i "off"))).

(** [isTruthyEnv(value, fallback)]; an unset variable is [None]. *)
Definition isTruthyEnv (value : option string) (fallback : bool) : bool :=
  match value with
  | None => fallback
  | Some s =>
      if is_empty s then fallback
      else negb (test_anchored falsyEnvPattern (trim s))
  end.

(** [RETRYABLE_FAILURE_PATTERNS] *)
Definition RETRYABLE_FAILURE_PATTERNS : list Regex := [
  (* /ENOTFOUND\s+registry\.npmjs\.org/i *)
  Cat (str_i "ENOTFOUND") (Cat (plus space) (str_i "registry.npmjs.org"));
  (* /ENOTFOUND\s+api\.openai\.com/i *)
  Cat (str_i "ENOTFOUND") (Cat (plus space) (str_i "api.openai.com"));
  (* /ETIMEDOUT/i *)
  str_i "ETIMEDOUT";
  (* /ECONNRESET/i *)
  str_i "ECONNRESET";
  (* /network request to https?:\/\/registry\.npmjs\.org/i *)
  Cat (str_i "network request to http")
      (Cat (opt (lit_i "s")) (str_i "://registry.npmjs.org"))
].

(** [isRetryableFailure(errorMessage)] *)
Definition isRetryableFailure (errorMessage : Value) : bool :=
  let text := to_string (or_else errorMessage (Some (JStr ""))) in
  existsb (fun pattern => test pattern text) RETRYABLE_FAILURE_PATTERNS.

(** The environment the script reads. The numeric settings are held as
    [Number(process.env.X)], which is [NaN] for a variable that is unset. *)
Record Env : Type := mkEnv {
  PROCESSING_STALE_MS : Number;
  RETRY_FAILED_JOBS : option string;
  MAX_FAILED_ATTEMPTS : Number
}.

Definition default_env : Env := mkEnv NaN None NaN.

(** *** Words and numbers of the settings *)

(** Two strings are equal up to the case of their ASCII letters. *)
Fixpoint eqb_ci_chars (a b : list ascii) : bool :=
  match a, b with
  | [], [] => true
  | x :: a', y :: b' => eqb_ci x y && eqb_ci_chars a' b'
  | _, _ => false
  end.

Definition equals_ignoring_case (a b : string) : bool :=
  eqb_ci_chars (chars a) (chars b).

(** The words [isTruthyEnv] reads as "off". *)
Definition falsy_words : list string := ["0"; "false"; "no"; "off"].

End Config.

(** ** The process supervisor ([run]) *)
Module Supervisor.
Import JsString Js Config.

Inductive Signal : Type := SIGTERM | SIGKILL.

Inductive Timer : Type := SoftTimeout | HardKill.

(** What the event loop delivers to the callbacks [run] registers. The
    exit code of a child that a signal ended is [null], here [None]. *)
Inductive Event : Type :=
| StdoutData (d : string)
| StderrData (d : string)
| ChildError (error : Error)
| ChildClose (code : option Z)
| TimerFired (timer : Timer).

Inductive Settled : Type :=
| Resolved (stdout stderr : string)
| Rejected (error : Error).

(** The variables [run] closes over, the timers that are pending (with the
    time they are due), the state of the promise and the signals sent. *)
Record State : Type := mkState {
  stdout : string;
  stderr : string;
  finished : bool;
  pending_timeout : option Z;
  pending_hardKill : option Z;
  promise : option Settled;
  signals : list (Z * Signal)
}.

Record Call : Type := mkCall {
  cmd : string;
  args : list string;
  timeoutMs_option : Number;
  spawned_at : Z
}.

Definition timeoutMs (c : Call) : Z := parsePositiveInt (timeoutMs_option c) 0.

Definition command_line (c : Call) : string := cmd c +:+ " " +:+ join " " (args c).

(** The state when [run] returns its promise. *)
Definition start (c : Call) : State :=
  mkState "" "" false
          (if 0 <? timeoutMs c then Some (spawned_at c + timeoutMs c) else None)
          None None [].

(** A promise settles once. *)
Definition settle (p : option Settled) (outcome : Settled) : option Settled :=
  match p with Some _ => p | None => Some outcome end.

Definition finalize (st : State) (outcome : State -> Settled) : State :=
  if finished st then st
  else mkState (stdout st) (stderr st) true None None
               (settle (promise st) (outcome st)) (signals st).

Definition string_of_code (code : option Z) : string :=
  match code with None => "null" | Some n => string_of_Z n end.

Definition failure_message (c : Call) (code : option Z) (st : State) : string :=
  trim (command_line c +:+ " failed (" +:+ string_of_code code +:+ ")" +:+
        String "010" (stdout st) +:+ String "010" (stderr st)).

Definition due (pending : option Z) (now : Z) : bool :=
  match pending with Some t => t <=? now | None => false end.

(** One callback, run at time [now]. A timer fires only when it is
    pending and due. *)
Definition step (c : Call) (st : State) (now : Z) (ev : Event) : State :=
  match ev with
  | StdoutData d =>
      mkState (stdout st +:+ d) (stderr st) (finished st) (pending_timeout st)
              (pending_hardKill st) (promise st) (signals st)
  | StderrData d =>
      mkState (stdout st) (stderr st +:+ d) (finished st) (pending_timeout st)
              (pending_hardKill st) (promise st) (signals st)
  | ChildError error => finalize st (fun _ => Rejected error)
  | ChildClose code =>
      finalize st (fun st =>
        match code with
        | Some 0 => Resolved (stdout st) (stderr st)
        | _ => Rejected (new_Error (failure_message c code st))
        end)
  | TimerFired SoftTimeout =>
      if due (pending_timeout st) now then
        if finished st then
          mkState (stdout st) (stderr st) (finished st) None
                  (pending_hardKill st) (promise st) (signals st)
        else
          mkState (stdout st)
                  (stderr st +:+ String "010" (command_line c) +:+ " timed out after "
                     +:+ string_of_Z (timeoutMs c) +:+ "ms")
                  (finished st) None (Some (now + 5000)) (promise st)
                  (signals st ++ [(now, SIGTERM)])
      else st
  | TimerFired HardKill =>
      if due (pending_hardKill st) now then
        mkState (stdout st) (stderr st) (finished st) (pending_timeout st) None
                (promise st)
                (if finished st then signals st else signals st ++ [(now, SIGKILL)])
      else st
  end.

(** The callbacks of a timed trace, in order. *)
Fixpoint exec (c : Call) (st : State) (trace : list (Z * Event)) : State :=
  match trace with
  | [] => st
  | (now, ev) :: rest => exec c (step c st now ev) rest
  end.

Definition run (c : Call) (trace : list (Z * Event)) : State := exec c (start c) trace.

(** The promise is pending exactly while [finished] is unset. *)
Definition Pending (st : State) : Prop :=
  finished st = false -> promise st = None.


(** The signals sent so far and the timers still pending: nothing yet,
    with the timeout pending if there is one; or one SIGTERM, sent when
    the timeout was due, with the hard kill pending five seconds later or
    cleared; or that SIGTERM and one SIGKILL at least five seconds after
    it. Once the call has finished no timer is pending. *)
Definition Escalation (c : Call) (st : State) : Prop :=
  (finished st = true -> pending_timeout st = None /\ pending_hardKill st = None)
  /\ ((signals st = [] /\ pending_hardKill st = None
       /\ (pending_timeout st = None
           \/ (0 < timeoutMs c
               /\ pending_timeout st = Some (spawned_at c + timeoutMs c))))
      \/ (exists t1,
            0 < timeoutMs c /\ spawned_at c + timeoutMs c <= t1
            /\ pending_timeout st = None
            /\ ((signals st = [(t1, SIGTERM)]
                 /\ (pending_hardKill st = None
                     \/ (finished st = false
                         /\ pending_hardKill st = Some (t1 + 5000))))
                \/ (exists t2,
                      t1 + 5000 <= t2 /\ pending_hardKill st = None
                      /\ signals st = [(t1, SIGTERM); (t2, SIGKILL)])))).

(** A build that hangs past its five-minute timeout and ignores SIGTERM. *)
Definition hanging_build : Call :=
  mkCall "npm" ["run"; "build"] (Finite (300000 # 1)) 0.
Definition hanging_trace : list (Z * Event) :=
  [(1200, StdoutData "building"); (300000, TimerFired SoftTimeout)].

End Supervisor.

(** ** The queue script: job discovery, bookkeeping and the batch loop *)
Module ProcessQueue.
Import JsString Regex Js FsJson Storage Config.

(** The time of a call: [Date.now()] and [new Date().toISOString()]. *)
Record Clock : Type := mkClock { nowMs : Z; nowIso : string }.

(** The steps of [processWorksheet] between the claim and the final
    bookkeeping; each works outside the metadata and queue documents. *)
Inductive PipelineStep : Type :=
| PrepareWorkspace
| Unzip
| DetectProjectRoot
| CodexRewrite
| SanitizeGuardrails
| NpmInstall
| BuildAndCopy
| VerifyShippableOutput
| VerifyOpenAiConnectivity.

(** What the commands and checks of a run do: the error a step of a
    worksheet throws, if it throws. *)
Definition World : Type := string -> PipelineStep -> option Error.

(** [[...new Set(ids)]]: the first occurrence of each id, in order. *)
Fixpoint dedupe_from (seen ids : list string) : list string :=
  match ids with
  | [] => []
  | id :: rest =>
      if bool_decide (id ∈ seen) then dedupe_from seen rest
      else id :: dedupe_from (id :: seen) rest
  end.
Definition dedupe (ids : list string) : list string := dedupe_from [] ids.

Section Script.

(** [Date.parse]: the milliseconds of a time string, or [NaN] ([None]). *)
Variable Date_parse : string -> option Z.

Variable env : Env.

Definition staleProcessingMs : Z :=
  parsePositiveInt (PROCESSING_STALE_MS env) (20 * 60 * 1000).
Definition retryFailedJobs : bool := isTruthyEnv (RETRY_FAILED_JOBS env) true.
Definition maxFailedAttempts : Z := parsePositiveInt (MAX_FAILED_ATTEMPTS env) 4.

(** [!Number.isFinite(startedMs) || nowMs - startedMs >= staleProcessingMs] *)
Definition stale (now : Z) (started_at : Value) : bool :=
  match Date_parse (to_string (or_else started_at (Some (JStr "")))) with
  | None => true
  | Some startedMs => staleProcessingMs <=? now - startedMs
  end.

(** The body of the loop over [queue.jobs]: the ids it pushes. *)
Definition scan_job (now : Z) (job : Json) : M (list string) :=
  match as_string (get_opt (Some job) "worksheet_id") with
  | None => ret []
  | Some w =>
      let worksheetId := trim w in
      if is_empty worksheetId then ret []
      else if strict_eq_str (get job "state") "queued" then ret [worksheetId]
      else if strict_eq_str (get job "state") "processing" then
        ret (if stale now (get job "started_at") then [worksheetId] else [])
      else if retryFailedJobs && strict_eq_str (get job "state") "failed" then
        let attempts := default 0 (finite (get job "attempts")) in
        if maxFailedAttempts <=? attempts then ret []
        else
          metadata ← read_metadata worksheetId JNull;
          ret (if isRetryableFailure (get_opt (Some metadata) "last_error")
               then [worksheetId] else [])
      else ret []
  end.

Fixpoint scan_jobs (now : Z) (jobs : list Json) : M (list string) :=
  match jobs with
  | [] => ret []
  | job :: rest =>
      ids ← scan_job now job;
      more ← scan_jobs now rest;
      ret (ids ++ more)%list
  end.

(** [queuedFromQueue] *)
Definition scan_queue (now : Z) : M (list string) :=
  queue ← read_queue empty_queue;
  jobs ← lift (get_strict queue "jobs");
  match jobs with
  | Some (JArr l) => scan_jobs now l
  | _ => ret []
  end.

(** The test the metadata scan applies to a document it has read. *)
Definition metadata_selected (metadata : Json) : option string :=
  if negb (truthy (Some metadata)) then None else
  match as_string (get metadata "worksheet_id") with
  | None => None
  | Some w =>
      if strict_eq_str (get metadata "state") "queued"
         || (retryFailedJobs && strict_eq_str (get metadata "state") "failed"
             && isRetryableFailure (get metadata "last_error"))
      then Some (trim w) else None
  end.

(** The loop over the entries of [metadata/]; a read that throws ends the
    scan, and what was found before it is kept. *)
Fixpoint scan_metadata_entries (entries : list (string * Node)) : list string :=
  match entries with
  | [] => []
  | (name, node) :: rest =>
      if negb (isFile node) || negb (endsWith name ".json") then
        scan_metadata_entries rest
      else
        match readJson (Some node) JNull with
        | Throw _ => []
        | Ok metadata =>
            match metadata_selected metadata with
            | Some id => id :: scan_metadata_entries rest
            | None => scan_metadata_entries rest
            end
        end
  end.

(** [discoveredFromMetadata] *)
Definition scan_metadata (s : Store) : list string :=
  match metadata_readdir s with
  | Some _ => []
  | None => scan_metadata_entries (map_to_list (metadata s))
  end.

Definition ensureMetadataFromIntake (worksheetId : string) (zip : Artifact)
    (now : string) : M Json :=
  existing ← read_metadata worksheetId JNull;
  if truthy (Some existing) then ret existing
  else
    let uploadedAt := default now (mtime zip) in
    let metadata := JObj (object_of [
      ("worksheet_id", Some (JStr worksheetId));
      ("title", Some JNull);
      ("owner_email", Some JNull);
      ("original_filename", Some (JStr "original.zip"));
      ("artifact_path",
        Some (JStr ("storage/intake/" +:+ worksheetId +:+ "/original.zip")));
      ("state", Some (JStr "queued"));
      ("uploaded_at", Some (JStr uploadedAt));
      ("integrated_at", Some JNull);
      ("last_error", Some JNull)
    ]) in
    _ ← write_metadata worksheetId metadata;
    ret metadata.

(** The loop over the entries of [intake/]; an error ends the scan, and
    what was found (and written) before it is kept. *)
Fixpoint scan_intake_entries (now : string) (entries : list (string * IntakeEntry))
    (s : Store) : list string * Store :=
  match entries with
  | [] => ([], s)
  | (worksheetId, entry) :: rest =>
      match entry with
      | WorksheetDir (Some zip) =>
          if Id.isWorksheetId (Some (JStr worksheetId)) then
            match ensureMetadataFromIntake worksheetId zip now s with
            | (Throw _, s') => ([], s')
            | (Ok metadata, s') =>
                let '(more, s'') := scan_intake_entries now rest s' in
                if truthy (Some metadata)
                   && strict_eq_str (get metadata "state") "queued"
                then (worksheetId :: more, s'') else (more, s'')
            end
          else scan_intake_entries now rest s
      | _ => scan_intake_entries now rest s
      end
  end.

(** [discoveredFromIntake] *)
Definition scan_intake (now : string) : M (list string) :=
  fun s =>
    match intake_readdir s with
    | Some _ => (Ok [], s)
    | None =>
        let '(ids, s') := scan_intake_entries now (map_to_list (intake s)) s in
        (Ok ids, s')
    end.

(** The scans of [resolveWorksheetIds], in discovery order. *)
Definition discover (clock : Clock) : M (list string) :=
  queuedFromQueue ← scan_queue (nowMs clock);
  discoveredFromMetadata ← gets scan_metadata;
  discoveredFromIntake ← scan_intake (nowIso clock);
  ret (dedupe (queuedFromQueue ++ discoveredFromMetadata ++ discoveredFromIntake)%list).

(** [resolveWorksheetIds(targetWorksheetId)]; no [--ws=] argument is [None]. *)
Definition resolveWorksheetIds (targetWorksheetId : option string) (clock : Clock)
    : M (list string) :=
  if truthy (JStr <$> targetWorksheetId)
  then ret (option_list targetWorksheetId)
  else discover clock.

(** [updateMetadata(worksheetId, patch)] *)
Definition updateMetadata (worksheetId : string) (patch : gmap string Json) : M Json :=
  current ← read_metadata worksheetId JNull;
  if negb (truthy (Some current))
  then throw (new_Error ("Missing metadata for " +:+ worksheetId))
  else
    let next := JObj (merge_objects (spread current) patch) in
    _ ← write_metadata worksheetId next;
    ret next.

(** The callback of [queue.jobs.map] in [updateQueueState], on a job whose
    [worksheet_id] is the one updated. *)
Definition next_job (job : Json) (state now : string) : Json :=
  let next := merge_objects (spread job) {[ "state" := JStr state ]} in
  let next :=
    if String.eqb state "processing" then
      <["started_at" := JStr now]>
        (<["attempts" := JNum (match finite (get job "attempts") with
                               | Some n => n + 1
                               | None => 1
                               end)]> next)
    else match finite (next !! "attempts") with
         | Some _ => next
         | None => <["attempts" := JNum 0]> next
         end in
  let next :=
    if negb (String.eqb state "processing") && truthy (next !! "started_at")
    then delete "started_at" next else next in
  let next :=
    if negb (truthy (next !! "queued_at"))
    then <["queued_at" := JStr now]> next else next in
  JObj next.

(** [queue.jobs.map(...)], with the [found] flag it sets. *)
Fixpoint map_jobs (jobs : list Json) (worksheetId state now : string)
    : Res (list Json * bool) :=
  match jobs with
  | [] => Ok ([], false)
  | job :: rest =>
      w ← get_strict job "worksheet_id";
      '(rest', found) ← map_jobs rest worksheetId state now;
      if strict_eq_str w worksheetId
      then Ok (next_job job state now :: rest', true)
      else Ok (job :: rest', found)
  end.

Definition pushed_job (worksheetId state now : string) : Json :=
  JObj (object_of [
    ("worksheet_id", Some (JStr worksheetId));
    ("state", Some (JStr state));
    ("attempts", Some (JNum (if String.eqb state "processing" then 1 else 0)));
    ("queued_at", Some (JStr now));
    ("started_at", if String.eqb state "processing" then Some (JStr now) else None)
  ]).

(** [updateQueueState(worksheetId, state)] *)
Definition updateQueueState (worksheetId state now : string) : M unit :=
  queue ← read_queue empty_queue;
  jobs ← lift (jobs_or_reset queue);
  '(jobs', found) ← lift (map_jobs jobs worksheetId state now);
  let jobs'' :=
    if found : bool then jobs' else (jobs' ++ [pushed_job worksheetId state now])%list in
  write_queue (with_jobs queue jobs'').

(** The steps between the claim and the final bookkeeping; the rewrite
    runs in mode [codex] only. The first error ends them. *)
Definition pipeline_steps (mode : string) : list PipelineStep :=
  [PrepareWorkspace; Unzip; DetectProjectRoot]
  ++ (if String.eqb mode "codex" then [CodexRewrite] else [])
  ++ [SanitizeGuardrails; NpmInstall; BuildAndCopy;
      VerifyShippableOutput; VerifyOpenAiConnectivity].

Fixpoint run_steps (outcome : PipelineStep -> option Error)
    (steps : list PipelineStep) : Res unit :=
  match steps with
  | [] => Ok tt
  | step :: rest =>
      match outcome step with
      | Some error => Throw error
      | None => run_steps outcome rest
      end
  end.

Record SummaryRow : Type := mkRow {
  row_worksheet_id : string;
  row_state : string;
  row_output : option string;
  row_error : option string
}.

(** [processWorksheet(worksheetId, mode)] *)
Definition processWorksheet (world : World) (clock : Clock)
    (worksheetId mode : string) : M SummaryRow :=
  metadata ← read_metadata worksheetId JNull;
  if negb (truthy (Some metadata))
  then throw (new_Error ("No metadata found for " +:+ worksheetId))
  else
    _ ← updateMetadata worksheetId
          {[ "state" := JStr "processing"; "last_error" := JNull ]};
    _ ← updateQueueState worksheetId "processing" (nowIso clock);
    _ ← lift (run_steps (world worksheetId) (pipeline_steps mode));
    _ ← updateMetadata worksheetId
          {[ "state" := JStr "integrated";
             "integrated_at" := JStr (nowIso clock);
             "last_error" := JNull ]};
    _ ← updateQueueState worksheetId "completed" (nowIso clock);
    ret (mkRow worksheetId "integrated" (Some ("shippable/" +:+ worksheetId)) None).

(** [markFailure(worksheetId, errorMessage)] *)
Definition markFailure (clock : Clock) (worksheetId errorMessage : string) : M unit :=
  _ ← updateMetadata worksheetId
        {[ "state" := JStr "failed"; "last_error" := JStr errorMessage ]};
  updateQueueState worksheetId "failed" (nowIso clock).

(** [String(error.message || error)] *)
Definition error_summary (error : Error) : string :=
  if is_empty (err_message error) then error_to_string error else err_message error.

(** One turn of the loop of [main]: the [try] and its [catch]. *)
Definition process_one (world : World) (clock : Clock) (mode worksheetId : string)
    : M SummaryRow :=
  try_catch (processWorksheet world clock worksheetId mode)
    (fun error =>
       let message := error_summary error in
       _ ← markFailure clock worksheetId message;
       ret (mkRow worksheetId "failed" None (Some message))).

(** The loop of [main] over the discovered ids. *)
Fixpoint process_all (world : World) (clock : Clock) (mode : string)
    (worksheetIds : list string) : M (list SummaryRow) :=
  match worksheetIds with
  | [] => ret []
  | worksheetId :: rest =>
      row ← process_one world clock mode worksheetId;
      rows ← process_all world clock mode rest;
      ret (row :: rows)
  end.

(** [main()], on the parsed arguments; the rows are the summary table. *)
Definition main (world : World) (clock : Clock) (target : option string)
    (mode : string) : M (list SummaryRow) :=
  worksheetIds ← resolveWorksheetIds target clock;
  process_all world clock mode worksheetIds.


End Script.

(** *** The bookkeeping, read off the stored documents *)

(** The jobs [updateQueueState] writes back, by recursion on the jobs. *)
Definition update_rec (jobs : list Json) (worksheetId state now : string) : list Json :=
  let jobs' :=
    map (fun job => if Repository.is_entry_for worksheetId job
                    then next_job job state now else job) jobs in
  if existsb (Repository.is_entry_for worksheetId) jobs then jobs'
  else (jobs' ++ [pushed_job worksheetId state now])%list.


(** The worksheet has a metadata record that [readJson] gives as a
    truthy value. *)
Definition has_metadata (s : Store) (worksheetId : string) : Prop :=
  exists md, metadata s !! metadata_name worksheetId = Some (File (Serialised md))
             /\ truthy (Some md) = true.



(** The claim: the two writes [processWorksheet] starts with. *)
Definition claim (clock : Clock) (worksheetId : string) : M unit :=
  _ ← updateMetadata worksheetId
        {[ "state" := JStr "processing"; "last_error" := JNull ]};
  updateQueueState worksheetId "processing" (nowIso clock).

(** A run in which [npm install] cannot reach the registry. *)
Definition offline_error : Error :=
  new_Error "npm install failed (1) request to https://registry.npmjs.org/vite failed, reason: getaddrinfo ENOTFOUND registry.npmjs.org".
Definition offline_world : World :=
  fun _ step =>
    match step with
    | NpmInstall => Some offline_error
    | _ => None
    end.

Definition sample_clock : Clock := mkClock 1772323200000 "2026-03-01T00:00:00.000Z".

(** The storage root after one upload. *)
Definition uploaded_store : Store :=
  snd (Repository.enqueueUploadedWorksheet Repository.first_upload
         Repository.fresh_store).

(** The storage root after the worksheet was claimed at [sample_clock]. *)
Definition claimed_store : Store :=
  snd (claim sample_clock "ws_20260228_c0ffee" uploaded_store).

(** ... and after the same id was then uploaded again. *)
Definition reuploaded_store : Store :=
  snd (Repository.enqueueUploadedWorksheet Repository.second_upload claimed_store).

(** The storage root after four runs of the batch loop in which
    [npm install] could not reach the registry. *)
Definition exhausted_store : Store :=
  Nat.iter 4
    (fun s => snd (process_one offline_world sample_clock "codex"
                     "ws_20260228_c0ffee" s))
    uploaded_store.

(** [started_at] is set on a pending entry only while it is processing. *)
Definition started_only_while_processing (job : Json) : Prop :=
  truthy (get job "started_at") = true ->
  get job "state" = Some (JStr "processing").

(** [Date.parse] on the strings [toISOString] writes,
    [YYYY-MM-DDTHH:mm:ss.sssZ]; this instance does not recognise the other
    formats [Date.parse] accepts. *)
Definition digit_val (c : ascii) : option Z :=
  if is_digit c then Some (Z.of_N (code c) - 48) else None.

Fixpoint number (l : list ascii) (acc : Z) : option Z :=
  match l with
  | [] => Some acc
  | c :: l' => d ← digit_val c; number l' (acc * 10 + d)
  end.

Definition days_from_civil (y m d : Z) : Z :=
  let y' := if m <=? 2 then y - 1 else y in
  let era := y' / 400 in
  let yoe := y' - era * 400 in
  let doy := (153 * (if m <=? 2 then m + 9 else m - 3) + 2) / 5 + d - 1 in
  let doe := yoe * 365 + yoe / 4 - yoe / 100 + doy in
  era * 146097 + doe - 719468.

Definition Date_parse_iso (s : string) : option Z :=
  match chars s with
  | [y1; y2; y3; y4; "-"; m1; m2; "-"; d1; d2; "T";
     h1; h2; ":"; n1; n2; ":"; s1; s2; "."; f1; f2; f3; "Z"]%char =>
      y ← number [y1; y2; y3; y4] 0;
      m ← number [m1; m2] 0;
      d ← number [d1; d2] 0;
      h ← number [h1; h2] 0;
      n ← number [n1; n2] 0;
      sec ← number [s1; s2] 0;
      ms ← number [f1; f2; f3] 0;
      if (1 <=? m) && (m <=? 12) && (1 <=? d) && (d <=? 31)
         && (h <=? 23) && (n <=? 59) && (sec <=? 59)
      then Some ((((days_from_civil y m d * 24 + h) * 60 + n) * 60 + sec) * 1000 + ms)
      else None
  | _ => None
  end.




(** What the intake scan finds. *)
Definition intake_found (now : string) (s : Store) : list string :=
  match fst (scan_intake now s) with Ok ids => ids | Throw _ => [] end.




(** Every file of [metadata/] can be read and parsed. *)
Definition MetadataReadable (s : Store) : Prop :=
  forall name node, metadata s !! name = Some node ->
                    exists v, node = File (Serialised v).

(** The record [ensureMetadataFromIntake] writes for an archive that
    has none. *)
Definition recovered_metadata (worksheetId uploadedAt : string) : Json :=
  JObj (object_of [
    ("worksheet_id", Some (JStr worksheetId));
    ("title", Some JNull);
    ("owner_email", Some JNull);
    ("original_filename", Some (JStr "original.zip"));
    ("artifact_path",
      Some (JStr ("storage/intake/" +:+ worksheetId +:+ "/original.zip")));
    ("state", Some (JStr "queued"));
    ("uploaded_at", Some (JStr uploadedAt));
    ("integrated_at", Some JNull);
    ("last_error", Some JNull)
  ]).

(** An upload whose archive reached [intake/] and nothing else. *)
Definition orphan_store : Store :=
  set_intake "ws_20260228_c0ffee" (WorksheetDir (Some (mkArtifact None)))
    Repository.fresh_store.

(** *** The command line *)

(** [s.startsWith(prefix)] and [s.slice(n)] *)
Definition startsWith (s prefix : string) : bool := String.prefix prefix s.
Definition slice_from (n : nat) (s : string) : string := of_chars (drop n (chars s)).

Record Args : Type := mkArgs { args_worksheetId : option string; args_mode : string }.

(** [parseArgs(argv)] *)
Definition parseArgs (argv : list string) : Args :=
  let wsArg := List.find (fun arg => startsWith arg "--ws=") argv in
  let modeArg := List.find (fun arg => startsWith arg "--mode=") argv in
  mkArgs
    (match wsArg with
     | Some arg => Some (trim (slice_from (String.length "--ws=") arg))
     | None => None
     end)
    (match modeArg with
     | Some arg => trim (slice_from (String.length "--mode=") arg)
     | None => "codex"
     end).

(** [main()] from the command line. *)
Definition main_argv (Date_parse : string -> option Z) (env : Env) (world : World)
    (clock : Clock) (argv : list string) : M (list SummaryRow) :=
  let args := parseArgs argv in
  main Date_parse env world clock (args_worksheetId args) (args_mode args).

(** The [attempts] of the entries of an id. *)
Definition attempts_of (worksheetId : string) (s : Store) : list Value :=
  map (fun job => get job "attempts")
      (Repository.entries_for worksheetId (Repository.pending_jobs s)).

End ProcessQueue.


(** ** The intake server: the fields of an upload *)
Module Upload.
Import JsString Regex Js Storage.








End Upload.

(** ** The intake server: the list of worksheets *)
Module Listing.
Import JsString Js FsJson Storage.

(** The ids [listWorksheetIds] takes from the jobs of the pending list. *)
Definition listed_job (job : Json) : option string :=
  let id := get_opt (Some job) "worksheet_id" in
  if Id.isWorksheetId id then as_string id else None.

(** ... and from the pending list: a file that cannot be read or parsed
    gives none. *)
Definition queue_ids (s : Store) : list string :=
  catch_all
    (raw ← readFile (queue s);
     queue ← JSON_parse raw;
     jobs ← get_strict queue "jobs";
     Ok match jobs with
        | Some (JArr l) => omap listed_job l
        | _ => []
        end)
    [].

(** [name.slice(0, -n)] *)
Definition drop_last (n : nat) (name : string) : string :=
  of_chars (take (String.length name - n) (chars name)).

Definition listed_metadata (entry : string * Node) : option string :=
  let '(name, node) := entry in
  if negb (isFile node) || negb (endsWith name ".json") then None
  else
    let worksheetId := drop_last (String.length ".json") name in
    if Id.isWorksheetId (Some (JStr worksheetId)) then Some worksheetId else None.

Definition metadata_ids (s : Store) : list string :=
  match metadata_readdir s with
  | Some _ => []
  | None => omap listed_metadata (map_to_list (metadata s))
  end.

(** The entries of a directory, each with [entry.isDirectory()]. *)
Definition listed_directory (entry : string * bool) : option string :=
  let '(name, isDirectory) := entry in
  if isDirectory && Id.isWorksheetId (Some (JStr name)) then Some name else None.

Definition directory_ids (entries : Res (list (string * bool))) : list string :=
  match entries with
  | Ok entries => omap listed_directory entries
  | Throw _ => []
  end.

Definition isDirectory (e : IntakeEntry) : bool :=
  match e with WorksheetDir _ => true | StrayFile => false end.

(** [fs.readdir(config.intakeDir, { withFileTypes: true })] *)
Definition intake_listing (s : Store) : Res (list (string * bool)) :=
  match intake_readdir s with
  | Some c => Throw (fs_error (io_code c))
  | None => Ok (map (fun '(name, e) => (name, isDirectory e)) (map_to_list (intake s)))
  end.

(** [listWorksheetIds(config)]; [shippable] is what listing
    [storage/shippable] gives. *)
Definition listWorksheetIds (s : Store) (shippable : Res (list (string * bool)))
    : list string :=
  ProcessQueue.dedupe
    (queue_ids s ++ metadata_ids s ++ directory_ids (intake_listing s)
     ++ directory_ids shippable)%list.

End Listing.

(** ** The queue script: the project of a worksheet and its output *)
Module Workspace.
Import JsString Regex Js FsJson Storage.



(** A directory tree as the script reads it: a file with what
    [fs.readFile] gives, a directory with what [fs.readdir] gives. *)
Inductive Tree : Type :=
| TFile (content : Res string)
| TDir (entries : Res (list (string * Tree))).

(** Some suffix of the input is a word of [r]: a pattern that ends in [$]. *)
Fixpoint matches_suffix (r : Regex) (s : list ascii) : bool :=
  matches r s ||
  match s with
  | [] => false
  | _ :: s' => matches_suffix r s'
  end.

(** [/\.(js|mjs|cjs|html|ts|tsx|json|map)$/i] *)
Definition text_extensions : list string :=
  ["js"; "mjs"; "cjs"; "html"; "ts"; "tsx"; "json"; "map"].

Definition textFilePattern : Regex :=
  Cat (lit_i ".")
      (Alt (str_i "js") (Alt (str_i "mjs") (Alt (str_i "cjs") (Alt (str_i "html")
      (Alt (str_i "ts") (Alt (str_i "tsx") (Alt (str_i "json") (str_i "map")))))))).

Definition isTextFile (name : string) : bool :=
  matches_suffix textFilePattern (chars name).

(** [path.join(dir, name)] for an entry of [dir]. *)
Definition join_path (dir name : string) : string := dir +:+ "/" +:+ name.

(** [gatherTextFiles(root)]: the text files below [root], each with what
    reading it will give. [walk_tree] is the body of the loop of [walk]
    for one entry. *)
Fixpoint walk_tree (full name : string) (t : Tree) : Res (list (string * Res string)) :=
  match t with
  | TFile content => Ok (if isTextFile name then [(full, content)] else [])
  | TDir (Throw error) => Throw error
  | TDir (Ok entries) =>
      (fix walk (entries : list (string * Tree)) : Res (list (string * Res string)) :=
         match entries with
         | [] => Ok []
         | (n, t') :: rest =>
             files ← walk_tree (join_path full n) n t';
             more ← walk rest;
             Ok (files ++ more)%list
         end) entries
  end.

Definition walk (dir : string) (entries : list (string * Tree))
    : Res (list (string * Res string)) :=
  (fix walk (entries : list (string * Tree)) : Res (list (string * Res string)) :=
     match entries with
     | [] => Ok []
     | (n, t') :: rest =>
         files ← walk_tree (join_path dir n) n t';
         more ← walk rest;
         Ok (files ++ more)%list
     end) entries.

Definition gatherTextFiles (root : string) (entries : Res (list (string * Tree)))
    : Res (list (string * Res string)) :=
  entries ← entries; walk root entries.

(** [content.includes(needle)] *)
Fixpoint is_prefix (needle hay : list ascii) : bool :=
  match needle, hay with
  | [], _ => true
  | c :: needle', d :: hay' => Ascii.eqb c d && is_prefix needle' hay'
  | _ :: _, [] => false
  end.

Fixpoint includes_chars (hay needle : list ascii) : bool :=
  is_prefix needle hay ||
  match hay with
  | [] => false
  | _ :: hay' => includes_chars hay' needle
  end.

Definition includes (content needle : string) : bool :=
  includes_chars (chars content) (chars needle).

(** [forbidden] of [verifyShippableOutput] *)
Definition forbidden : list Regex := [
  (* /generativelanguage\.googleapis\.com/i *)
  str_i "generativelanguage.googleapis.com";
  (* /@google\/genai/i *)
  str_i "@google/genai";
  (* /GoogleGenAI/i *)
  str_i "GoogleGenAI"
].

(** The loop of [verifyShippableOutput] over the text files, with the
    two flags it keeps. *)
Fixpoint scan_files (files : list (string * Res string))
    (hasRuntimeHook hasModelHint : bool) : Res (bool * bool) :=
  match files with
  | [] => Ok (hasRuntimeHook, hasModelHint)
  | (file, read) :: rest =>
      content ← read;
      let hasRuntimeHook := hasRuntimeHook || includes content "/api/runtime/ai" in
      let hasModelHint := hasModelHint || includes content "gpt-4.1" in
      if existsb (fun re => test re content) forbidden
      then Throw (new_Error
                    ("Forbidden Gemini pattern found in shippable output: " +:+ file))
      else scan_files rest hasRuntimeHook hasModelHint
  end.

(** [verifyShippableOutput(outDir)] from [gatherTextFiles(outDir)] on:
    the scan of the text files and the two checks after it. *)
Definition verify_text_files (outDir : string) (entries : Res (list (string * Tree)))
    : Res unit :=
  files ← gatherTextFiles outDir entries;
  '(hasRuntimeHook, hasModelHint) ← scan_files files false false;
  if negb hasRuntimeHook
  then Throw (new_Error "Missing /api/runtime/ai hook in shippable output")
  else if negb hasModelHint
  then Throw (new_Error "Missing gpt-4.1 reference in shippable output")
  else Ok tt.

(** [needle] occurs in [content]. *)
Definition contains (content needle : string) : Prop :=
  exists pre post, chars content = (pre ++ chars needle ++ post)%list.

(** A word of [words], in any letter case, occurs in [content]. *)
Definition mentions (content : string) (words : list string) : Prop :=
  exists word pre x post,
    word ∈ words /\ chars content = (pre ++ x ++ post)%list
    /\ Config.eqb_ci_chars (chars word) x = true.

(** The name ends in a dot and one of the extensions, in any letter case. *)
Definition has_text_extension (name : string) : Prop :=
  exists stem ext word,
    chars name = (stem ++ "."%char :: ext)%list
    /\ word ∈ text_extensions /\ Config.eqb_ci_chars (chars word) ext = true.

(** The text files of a tree, with their paths and with what reading
    them gives. *)
Inductive text_file_in (dir : string) (entries : list (string * Tree))
    : string -> Res string -> Prop :=
| text_file_here name content :
    (name, TFile content) ∈ entries -> has_text_extension name ->
    text_file_in dir entries (join_path dir name) content
| text_file_below name sub path content :
    (name, TDir (Ok sub)) ∈ entries ->
    text_file_in (join_path dir name) sub path content ->
    text_file_in dir entries path content.

(** Every directory below can be listed. *)
Inductive listable : list (string * Tree) -> Prop :=
| listable_nil : listable []
| listable_file name content rest :
    listable rest -> listable ((name, TFile content) :: rest)
| listable_dir name sub rest :
    listable sub -> listable rest -> listable ((name, TDir (Ok sub)) :: rest).

Definition forbidden_words : list string :=
  ["generativelanguage.googleapis.com"; "@google/genai"; "GoogleGenAI"].


Definition clean_output : list (string * Tree) :=
  [ ("index.html", TFile (Ok "<script src=./assets/app.js></script>"));
    ("assets", TDir (Ok [
       ("app.js", TFile (Ok "fetch('/api/runtime/ai',{body:{model:'gpt-4.1'}})"));
       ("logo.png", TFile (Throw (fs_error "EACCES"))) ])) ].

End Workspace.
(** * Properties *)

Module RegexFacts.
Import JsString Regex.

Lemma lang_Empty s : lang Empty s -> False.
Proof. inversion 1. Qed.

Lemma lang_Eps s : lang Eps s <-> s = [].
Proof. split; [by inversion 1 | intros ->; constructor]. Qed.

Lemma lang_Chr p s : lang (Chr p) s <-> exists c, s = [c] /\ p c = true.
Proof.
  split.
  - inversion 1; subst; eauto.
  - intros (c & -> & Hc). by constructor.
Qed.

Lemma lang_Cat r1 r2 s :
  lang (Cat r1 r2) s <-> exists s1 s2, s = (s1 ++ s2)%list /\ lang r1 s1 /\ lang r2 s2.
Proof.
  split.
  - inversion 1; subst; eauto.
  - intros (s1 & s2 & -> & H1 & H2). by constructor.
Qed.

Lemma lang_Alt r1 r2 s : lang (Alt r1 r2) s <-> lang r1 s \/ lang r2 s.
Proof.
  split.
  - inversion 1; subst; eauto.
  - intros [H | H]; [by apply lang_alt_l | by apply lang_alt_r].
Qed.

Lemma nullable_lang r : nullable r = true <-> lang r [].
Proof.
  induction r as [| | p | r1 IH1 r2 IH2 | r1 IH1 r2 IH2 | r IH]; simpl.
  - split; [done | by intros ?%lang_Empty].
  - split; [constructor | done].
  - split; [done | intros (c & ? & _)%lang_Chr; done].
  - rewrite andb_true_iff, IH1, IH2, lang_Cat. split.
    + intros [H1 H2]. exists [], []. done.
    + intros (s1 & s2 & Heq & H1 & H2).
      symmetry in Heq. apply app_eq_nil in Heq as [-> ->]. done.
  - rewrite orb_true_iff, IH1, IH2, lang_Alt. done.
  - split; [constructor | done].
Qed.

Lemma lang_smart_cat r1 r2 s : lang (cat r1 r2) s <-> lang (Cat r1 r2) s.
Proof.
  assert (Hdead1 : forall r, lang (Cat Empty r) s <-> lang Empty s).
  { intros r. rewrite lang_Cat. split.
    - intros (? & ? & _ & []%lang_Empty & _).
    - intros []%lang_Empty. }
  assert (Hdead2 : forall r, lang (Cat r Empty) s <-> lang Empty s).
  { intros r. rewrite lang_Cat. split.
    - intros (? & ? & _ & _ & []%lang_Empty).
    - intros []%lang_Empty. }
  assert (Heps : forall r, lang (Cat Eps r) s <-> lang r s).
  { intros r. rewrite lang_Cat. split.
    - intros (s1 & s2 & -> & ->%lang_Eps & H). done.
    - intros H. exists [], s. split; [done | split; [constructor | done]]. }
  destruct r1, r2; simpl; rewrite ?Hdead1, ?Hdead2, ?Heps; done.
Qed.

Lemma lang_smart_alt r1 r2 s : lang (alt r1 r2) s <-> lang (Alt r1 r2) s.
Proof.
  rewrite lang_Alt.
  destruct r1, r2; simpl; rewrite ?lang_Alt;
    split; intros H; try tauto; try (destruct H as [H | H]; try tauto);
    try (by apply lang_Empty in H).
Qed.

Lemma lang_Star_cons r c s :
  lang (Star r) (c :: s) ->
  exists s1 s2, s = (s1 ++ s2)%list /\ lang r (c :: s1) /\ lang (Star r) s2.
Proof.
  intros H. remember (Star r) as r' eqn:Hr. remember (c :: s) as w eqn:Hw.
  revert c s Hw.
  induction H as [| | | | | |r0 s1 s2 H1 _ H2 IH2]; try discriminate.
  injection Hr as ->. intros c s Hw.
  destruct s1 as [|c1 s1]; simpl in Hw.
  - by apply IH2.
  - injection Hw as -> <-. eauto.
Qed.

Lemma deriv_lang c r : forall s, lang (deriv c r) s <-> lang r (c :: s).
Proof.
  induction r as [| | p | r1 IH1 r2 IH2 | r1 IH1 r2 IH2 | r IH]; intros s; simpl.
  - split; inversion 1.
  - split; inversion 1.
  - destruct (p c) eqn:Hp.
    + rewrite lang_Eps, lang_Chr. split.
      * intros ->. eauto.
      * intros (c' & [= <- ->] & _). done.
    + rewrite lang_Chr. split; [by intros ?%lang_Empty |].
      intros (c' & [= <- ->] & Hp'). congruence.
  - rewrite lang_smart_alt, lang_Alt, lang_smart_cat, !lang_Cat. split.
    + intros [(s1 & s2 & -> & H1 & H2) | H].
      * exists (c :: s1), s2. rewrite <- IH1. done.
      * destruct (nullable r1) eqn:Hn; [| by apply lang_Empty in H].
        exists [], (c :: s). rewrite <- IH2, <- nullable_lang. done.
    + intros (s1 & s2 & Heq & H1 & H2).
      destruct s1 as [|c1 s1]; simpl in Heq.
      * right. subst s2. apply nullable_lang in H1 as ->. by apply IH2.
      * injection Heq as <- ->. left. exists s1, s2. rewrite IH1. done.
  - rewrite lang_smart_alt, !lang_Alt, IH1, IH2. done.
  - rewrite lang_smart_cat, lang_Cat. split.
    + intros (s1 & s2 & -> & H1 & H2). apply IH in H1.
      by apply (lang_star_cons r (c :: s1) s2).
    + intros (s1 & s2 & -> & H1 & H2)%lang_Star_cons.
      exists s1, s2. rewrite IH. done.
Qed.

Lemma matches_lang r s : matches r s = true <-> lang r s.
Proof.
  revert r. induction s as [|c s IH]; intros r; simpl.
  - apply nullable_lang.
  - rewrite IH. apply deriv_lang.
Qed.


End RegexFacts.

Module IdProofs.
Import JsString Regex Js Id RegexFacts.

Example generate_example :
  generateWorksheetId (UtcDate 2026 1 28) [Byte.xc0; Byte.xff; Byte.xee; Byte.x12]
  = "ws_20260228_c0ffee".
Proof. reflexivity. Qed.

Example generate_year_999 :
  generateWorksheetId (UtcDate 999 0 1) [Byte.xc0; Byte.xff; Byte.xee; Byte.x12]
  = "ws_9990101_c0ffee".
Proof. reflexivity. Qed.

Example accepts_upper : isWorksheetId (Some (JStr "WS_20260228_ABCDEF")) = true.
Proof. reflexivity. Qed.

Example rejects_short : isWorksheetId (Some (JStr "ws_2026022_abcdef")) = false.
Proof. reflexivity. Qed.

Lemma chars_app a b : chars (a +:+ b) = (chars a ++ chars b)%list.
Proof. induction a as [|c a IH]; simpl; [done | by rewrite <- IH]. Qed.

Lemma chars_of_chars l : chars (of_chars l) = l.
Proof. apply list_ascii_of_string_of_list_ascii. Qed.

Lemma length_chars s : String.length s = length (chars s).
Proof. induction s as [|c s IH]; simpl; [done | by rewrite IH]. Qed.










(** *** What the validator accepts *)












End IdProofs.

Module FsJsonProofs.
Import JsString Js FsJson.

Example read_absent : readJson None JNull = Ok JNull.
Proof. reflexivity. Qed.

Example read_garbage :
  readJson (Some (File (NotJson "{ jobs: "))) JNull
  = Throw (SyntaxError "Unexpected token in JSON").
Proof. reflexivity. Qed.

(** C9: [readJson] returns the fallback when the path does not exist; when
    the path exists the fallback plays no part in the outcome: a read that
    fails and a text that is not JSON throw, and a JSON text gives its
    parsed value. *)
Theorem C9_readJson_fallback_only_when_absent :
  (forall fallback, readJson None fallback = Ok fallback)
  /\ (forall node fallback fallback',
        readJson (Some node) fallback = readJson (Some node) fallback')
  /\ (forall c fallback,
        readJson (Some (Denied c)) fallback = Throw (fs_error (io_code c)))
  /\ (forall fallback, readJson (Some Folder) fallback = Throw (fs_error "EISDIR"))
  /\ (forall raw fallback,
        exists error, readJson (Some (File (NotJson raw))) fallback = Throw error
                      /\ err_name error = "SyntaxError")
  /\ (forall v fallback, readJson (Some (File (Serialised v))) fallback = Ok v).
Proof.
  repeat split.
  - intros [| c | [raw | v]] fallback fallback'; try reflexivity.
    destruct c; reflexivity.
  - intros c fallback. destruct c; reflexivity.
  - intros raw fallback. eexists. split; reflexivity.
Qed.

End FsJsonProofs.

Module RepositoryProofs.
Import JsString Js FsJson Storage Repository.

Lemma get_strict_nonnull job k : job <> JNull -> get_strict job k = Ok (get job k).
Proof. by destruct job. Qed.


Lemma nextJob_started_at id now : nextJob id now !! "started_at" = None.
Proof. unfold nextJob. simpl. by simplify_map_eq. Qed.


Lemma strict_eq_str_true v s : strict_eq_str v s = true <-> v = Some (JStr s).
Proof.
  destruct v as [[]|]; simpl; try (split; [discriminate | congruence]).
  rewrite String.eqb_eq. split; congruence.
Qed.












(** *** The call on the store *)




Lemma pending_jobs_written s o jobs :
  pending_jobs (set_queue (writeJsonAtomic (with_jobs (JObj o) jobs)) s) = jobs.
Proof. unfold pending_jobs. simpl. by rewrite lookup_insert_eq. Qed.








Example second_upload_has_entry :
  length (entries_for (worksheetId second_upload)
            (pending_jobs (enqueue_all [first_upload] fresh_store))) = 1%nat
  /\ length (pending_jobs
               (enqueue_all [first_upload; second_upload] fresh_store)) = 1%nat.
Proof. split; vm_compute; reflexivity. Qed.

(** *** Status *)

Lemma read_queue_entry_store id s : snd (read_queue_entry id s) = s.
Proof.
  unfold read_queue_entry, mbind, M_bind, bind, read_queue, lift. simpl.
  destruct (readJson (queue s) empty_queue) as [q|]; simpl; [| done].
  destruct (get_strict q "jobs"); done.
Qed.

Lemma getWorksheetStatus_absent id s :
  metadata s !! metadata_name id = None -> getWorksheetStatus id s = (Ok None, s).
Proof.
  intros H. unfold getWorksheetStatus, mbind, M_bind, bind, gets. simpl.
  by rewrite H.
Qed.

Example status_prefers_metadata :
  status_state <$> default None
    (match fst (getWorksheetStatus "ws_20260228_feed01" stale_queue_store) with
     | Ok r => Some r | Throw _ => None end) = Some "queued".
Proof. reflexivity. Qed.

(** C5, as amended: [getWorksheetStatus] returns [null] when the metadata
    file of the id is absent; when the file holds a record whose [state]
    is a string that is not blank (not empty once trimmed), and the
    pending list can be read, it returns a status whose state is the
    trimmed metadata state, whatever the pending entry of the id says. *)
Theorem C5_status_prefers_trimmed_metadata_state
    (s : Store) (id : string) (md : Json) (st : string) (entry : Value) :
  metadata s !! metadata_name id = Some (File (Serialised md)) ->
  get md "state" = Some (JStr st) ->
  is_empty (trim st) = false ->
  fst (read_queue_entry id s) = Ok entry ->
  (exists status,
     getWorksheetStatus id s = (Ok (Some status), s)
     /\ status_state status = trim st)
  /\ (forall s0, metadata s0 !! metadata_name id = None ->
                getWorksheetStatus id s0 = (Ok None, s0)).
Proof.
  intros Hmd Hstate Hblank Hentry. split; [| intros s0; apply getWorksheetStatus_absent].
  pose proof (read_queue_entry_store id s) as Hstore.
  destruct md as [| | | | |items|o]; try discriminate.
  unfold getWorksheetStatus, mbind, M_bind, bind, gets, read_metadata, ret.
  cbv beta. rewrite Hmd. cbn [fileExists negb]. cbv beta iota. rewrite Hmd.
  change (readJson (Some (File (Serialised (JObj o)))) JNull) with (Ok (JObj o)).
  cbn [truthy negb]. cbv beta iota.
  destruct (read_queue_entry id s) as [r s1]. cbn [fst snd] in *. subst r s1.
  eexists. split; [reflexivity |]. cbn [status_state].
  unfold trimmed_string at 1. rewrite Hstate. cbn [as_string]. by rewrite Hblank.
Qed.

Lemma C5_status_prefers_trimmed_metadata_state_witness :
  (exists status,
     getWorksheetStatus "ws_20260228_feed01" stale_queue_store
     = (Ok (Some status), stale_queue_store)
     /\ status_state status = trim "queued")
  /\ (forall s0, metadata s0 !! metadata_name "ws_20260228_feed01" = None ->
                getWorksheetStatus "ws_20260228_feed01" s0 = (Ok None, s0)).
Proof.
  eapply (C5_status_prefers_trimmed_metadata_state stale_queue_store
            "ws_20260228_feed01" _ "queued" _); reflexivity.
Defined.

(** C5 fails as stated: a metadata record whose [state] is the non-empty
    string of one space, beside a pending entry in state [failed], gets
    the status [failed], the state of the pending entry. *)
Lemma C5_counterexample :
  exists md status,
    metadata blank_state_store !! metadata_name "ws_20260228_feed01"
    = Some (File (Serialised md))
    /\ get md "state" = Some (JStr " ")
    /\ fst (getWorksheetStatus "ws_20260228_feed01" blank_state_store)
       = Ok (Some status)
    /\ status_state status = "failed"
    /\ status_state status <> " ".
Proof. eexists _, _. repeat split; try reflexivity. discriminate. Qed.

End RepositoryProofs.

Module SupervisorProofs.
Import JsString Js Config Supervisor.

Lemma exec_app c st trace1 trace2 :
  exec c st (trace1 ++ trace2) = exec c (exec c st trace1) trace2.
Proof.
  revert st. induction trace1 as [|[now ev] rest IH]; intros st; simpl; [done |].
  apply IH.
Qed.

Lemma step_pending c st now ev : Pending st -> Pending (step c st now ev).
Proof.
  unfold Pending. intros H.
  destruct ev as [d | d | error | code | []]; unfold step, finalize;
    try (destruct (due _ now)); destruct (finished st) eqn:Hfin;
    simpl; rewrite ?Hfin; auto; discriminate.
Qed.

Lemma exec_pending c st trace : Pending st -> Pending (exec c st trace).
Proof.
  revert st. induction trace as [|[now ev] rest IH]; intros st H; simpl; [done |].
  by apply IH, step_pending.
Qed.

Lemma run_pending c trace : Pending (run c trace).
Proof. apply exec_pending. by intros _. Qed.

(** Once finished, the promise does not change. *)
Lemma step_finished c st now ev :
  finished st = true ->
  finished (step c st now ev) = true /\ promise (step c st now ev) = promise st.
Proof.
  intros H. unfold step, finalize.
  destruct ev as [d | d | error | code | []]; simpl; rewrite ?H;
    repeat case_match; simpl; auto.
Qed.

Lemma exec_finished c st trace :
  finished st = true -> promise (exec c st trace) = promise st.
Proof.
  revert st. induction trace as [|[now ev] rest IH]; intros st H; simpl; [done |].
  destruct (step_finished c st now ev H) as [Hf Hp]. by rewrite IH, Hp.
Qed.





Example hanging_build_is_killed :
  signals (run hanging_build
             (hanging_trace ++ [(305000, TimerFired HardKill); (305020, ChildClose None)]))
  = [(300000, SIGTERM); (305000, SIGKILL)]
  /\ promise (run hanging_build
                (hanging_trace
                 ++ [(305000, TimerFired HardKill); (305020, ChildClose None)]))
     = Some (Rejected (new_Error
         ("npm run build failed (null)" +:+ String "010" "building" +:+ String "010" ""
          +:+ String "010" "npm run build timed out after 300000ms"))).
Proof. split; vm_compute; reflexivity. Qed.

Example quick_exit_clears_the_timers :
  let st := run hanging_build [(1200, StdoutData "done"); (2000, ChildClose (Some 0));
                               (300000, TimerFired SoftTimeout)] in
  promise st = Some (Resolved "done" "") /\ signals st = [] /\ pending_timeout st = None.
Proof. repeat split; vm_compute; reflexivity. Qed.



End SupervisorProofs.

Module ProcessQueueProofs.
Import JsString Regex Js FsJson Storage Config Repository ProcessQueue.
Import RepositoryProofs.

(** One step of an operation on the store. *)
Ltac unfold_m :=
  unfold mbind, M_bind, bind, mret, M_ret, ret, lift, gets, modify, throw,
    try_catch, read_metadata, read_queue, write_metadata, write_queue;
  cbv beta.

(** *** [updateMetadata] *)




(** *** [updateQueueState] *)

Lemma map_jobs_spec jobs id state now :
  Forall (fun job => job <> JNull) jobs ->
  map_jobs jobs id state now
  = Ok (map (fun job => if is_entry_for id job then next_job job state now else job) jobs,
        existsb (is_entry_for id) jobs).
Proof.
  induction 1 as [|job rest Hjob Hrest IH]; [done |].
  simpl. rewrite (get_strict_nonnull _ _ Hjob). simpl. rewrite IH. simpl.
  unfold is_entry_for. by destruct (strict_eq_str _ id).
Qed.

Lemma read_queue_well_formed s :
  QueueWellFormed s ->
  exists o, readJson (queue s) empty_queue = Ok (JObj o)
            /\ jobs_or_reset (JObj o) = Ok (pending_jobs s).
Proof.
  intros ([Hq | [o Hq]] & _); unfold pending_jobs; rewrite Hq.
  - eexists. split; [reflexivity |]. done.
  - exists o. split; [reflexivity |].
    unfold jobs_or_reset. simpl. destruct (o !! "jobs") as [[]|]; done.
Qed.

Lemma updateQueueState_run id state now s :
  QueueWellFormed s ->
  exists o,
    updateQueueState id state now s
    = (Ok tt, set_queue (writeJsonAtomic
                           (with_jobs (JObj o) (update_rec (pending_jobs s) id state now))) s).
Proof.
  intros Hwf. destruct (read_queue_well_formed s Hwf) as (o & Hread & Hjobs).
  destruct Hwf as [_ Hnonnull]. exists o.
  unfold updateQueueState. unfold_m. rewrite Hread. cbv beta iota.
  rewrite Hjobs. cbv beta iota.
  rewrite (map_jobs_spec _ _ _ _ Hnonnull). cbv beta iota.
  unfold update_rec. by destruct (existsb _ _).
Qed.

(** *** The entry [updateQueueState] writes *)

Ltac lookup_through :=
  repeat first
    [ rewrite lookup_insert_eq
    | rewrite lookup_delete_eq
    | rewrite lookup_insert_ne by done
    | rewrite lookup_delete_ne by done ].

Lemma next_job_lookup job state now k :
  k <> "state" -> k <> "attempts" -> k <> "started_at" -> k <> "queued_at" ->
  get (next_job job state now) k = spread job !! k.
Proof.
  intros H1 H2 H3 H4. unfold next_job, merge_objects. cbn [get].
  repeat case_match; lookup_through;
    by rewrite lookup_union_r by (by rewrite lookup_singleton_ne).
Qed.

Lemma next_job_state job state now :
  get (next_job job state now) "state" = Some (JStr state).
Proof.
  unfold next_job, merge_objects. cbn [get].
  repeat case_match; lookup_through;
    by rewrite (lookup_union_Some_l _ _ _ (JStr state)) by apply lookup_singleton_eq.
Qed.

Lemma next_job_started_at job state now :
  state <> "processing" ->
  truthy (get (next_job job state now) "started_at") = false.
Proof.
  intros Hstate%String.eqb_neq. unfold next_job, merge_objects. cbn [get].
  rewrite Hstate. cbn [negb andb].
  repeat case_match; lookup_through; try done;
    match goal with H : truthy _ = false |- _ => revert H end;
    lookup_through; done.
Qed.



Lemma next_job_entry job id id' state now :
  is_entry_for id job = true ->
  is_entry_for id' (next_job job state now) = is_entry_for id' job.
Proof.
  unfold is_entry_for. intros H%strict_eq_str_true.
  rewrite next_job_lookup by done.
  destruct job; try discriminate. done.
Qed.

Lemma pushed_job_entry id id' state now :
  is_entry_for id' (pushed_job id state now) = String.eqb id id'.
Proof.
  unfold is_entry_for, pushed_job. cbn [get object_of].
  by rewrite lookup_insert_eq.
Qed.

Lemma pushed_job_state id state now :
  get (pushed_job id state now) "state" = Some (JStr state).
Proof. unfold pushed_job. cbn [get object_of]. by lookup_through. Qed.



(** *** The pending list [updateQueueState] leaves *)


Lemma entries_update_rec jobs id state now :
  entries_for id (update_rec jobs id state now)
  = (map (fun job => next_job job state now) (entries_for id jobs)
     ++ if existsb (is_entry_for id) jobs then [] else [pushed_job id state now])%list.
Proof.
  assert (Hmap : entries_for id
                   (map (fun job => if is_entry_for id job
                                    then next_job job state now else job) jobs)
                 = map (fun job => next_job job state now) (entries_for id jobs)).
  { unfold entries_for. induction jobs as [|job rest IH]; simpl; [done |].
    destruct (is_entry_for id job) eqn:Hjob; simpl.
    - by rewrite (next_job_entry _ _ _ _ _ Hjob), Hjob, IH.
    - by rewrite Hjob, IH. }
  unfold update_rec. destruct (existsb (is_entry_for id) jobs).
  - by rewrite Hmap, app_nil_r.
  - unfold entries_for in *. rewrite List.filter_app, Hmap. simpl.
    by rewrite pushed_job_entry, String.eqb_refl.
Qed.


(** *** A metadata patch followed by a queue update *)



(** *** The batch loop *)



















(** *** The retry cap *)

(** The pending-list scan leaves a failed job alone once its attempts
    have reached the cap. *)
Lemma scan_job_capped Date_parse env now job raw n s :
  get job "worksheet_id" = Some (JStr raw) ->
  get job "state" = Some (JStr "failed") ->
  get job "attempts" = Some (JNum n) ->
  maxFailedAttempts env <= n ->
  scan_job Date_parse env now job s = (Ok [], s).
Proof.
  intros Hid Hstate Hattempts Hcap. unfold scan_job.
  destruct job; try discriminate. cbn [get_opt]. rewrite Hid. cbn [as_string].
  destruct (is_empty (trim raw)); [reflexivity |].
  rewrite Hstate, Hattempts. cbn [strict_eq_str String.eqb Ascii.eqb Bool.eqb finite default].
  destruct (retryFailedJobs env); cbn [andb]; [| reflexivity].
  change (id n) with n.
  destruct (Z.leb_spec (maxFailedAttempts env) n); [reflexivity | lia].
Qed.

(** C1, at the failing input: after four runs in which [npm install]
    could not reach the registry, the pending entry is [failed] with
    [attempts] 4, the default cap; the pending-list scan leaves it out,
    yet [resolveWorksheetIds] returns its id, which the metadata scan
    selects without looking at the attempts. *)
Theorem C1_capped_job_selected_by_metadata_scan (Date_parse : string -> option Z) :
  attempts_of "ws_20260228_c0ffee" exhausted_store = [Some (JNum 4)]
  /\ maxFailedAttempts default_env = 4
  /\ retryFailedJobs default_env = true
  /\ fst (scan_queue Date_parse default_env (nowMs sample_clock) exhausted_store)
     = Ok []
  /\ scan_metadata default_env exhausted_store = ["ws_20260228_c0ffee"]
  /\ fst (resolveWorksheetIds Date_parse default_env None sample_clock exhausted_store)
     = Ok ["ws_20260228_c0ffee"].
Proof. repeat split; vm_compute; reflexivity. Qed.

(** *** [started_at] and [attempts] *)

(** Whatever the target state, the entries [updateQueueState] touches or
    appends carry [started_at] only in state [processing]. *)
Lemma next_job_started_only_while_processing job state now :
  started_only_while_processing (next_job job state now).
Proof.
  unfold started_only_while_processing. intros Hstarted.
  rewrite next_job_state. destruct (decide (state = "processing")) as [-> | Hne]; [done |].
  by rewrite next_job_started_at in Hstarted.
Qed.

Lemma pushed_job_started_only_while_processing id state now :
  started_only_while_processing (pushed_job id state now).
Proof.
  unfold started_only_while_processing. rewrite pushed_job_state.
  unfold pushed_job. cbn [get object_of].
  destruct (String.eqb_spec state "processing") as [-> | Hne]; [done |].
  by lookup_through.
Qed.

Lemma update_rec_started_only_while_processing jobs id state now :
  Forall started_only_while_processing jobs ->
  Forall started_only_while_processing (update_rec jobs id state now).
Proof.
  intros H. unfold update_rec.
  assert (Forall started_only_while_processing
            (map (fun job => if is_entry_for id job
                             then next_job job state now else job) jobs)) as Hmap.
  { induction H as [|job rest Hjob Hrest IH]; simpl; constructor; [| done].
    destruct (is_entry_for id job); [| done].
    apply next_job_started_only_while_processing. }
  destruct (existsb _ _); [done |]. apply Forall_app. split; [done |].
  constructor; [| done]. apply pushed_job_started_only_while_processing.
Qed.

Lemma updateQueueState_started_only_while_processing id state now s :
  QueueWellFormed s ->
  Forall started_only_while_processing (pending_jobs s) ->
  fst (updateQueueState id state now s) = Ok tt
  /\ Forall started_only_while_processing
            (pending_jobs (snd (updateQueueState id state now s))).
Proof.
  intros Hwf Hinv. destruct (updateQueueState_run id state now s Hwf) as [o ->].
  split; [done |]. cbn [snd]. rewrite pending_jobs_written.
  by apply update_rec_started_only_while_processing.
Qed.

(** C3, at the failing input: a worksheet is uploaded and claimed, so
    that its pending entry is in state [processing] with [started_at]
    set; the same id is then enqueued again. The upsert leaves one entry,
    in state [queued] with [attempts] 0, that still carries the
    [started_at] of the claim. *)
Theorem C3_reenqueue_keeps_started_at :
  (exists e, pending_jobs claimed_store = [e]
             /\ get e "state" = Some (JStr "processing")
             /\ get e "started_at" = Some (JStr "2026-03-01T00:00:00.000Z"))
  /\ Forall started_only_while_processing (pending_jobs claimed_store)
  /\ exists e, pending_jobs reuploaded_store = [e]
               /\ get e "state" = Some (JStr "queued")
               /\ get e "attempts" = Some (JNum 0)
               /\ get e "started_at" = Some (JStr "2026-03-01T00:00:00.000Z")
               /\ ~ started_only_while_processing e.
Proof.
  split; [| split].
  - eexists. split; [vm_compute; reflexivity |]. split; vm_compute; reflexivity.
  - assert (exists e, pending_jobs claimed_store = [e]
                      /\ get e "state" = Some (JStr "processing")) as (e & -> & He).
    { eexists. split; vm_compute; reflexivity. }
    constructor; [| done]. by intros _.
  - eexists. split; [vm_compute; reflexivity |].
    split; [vm_compute; reflexivity |]. split; [vm_compute; reflexivity |].
    split; [vm_compute; reflexivity |].
    intros H. assert (Some (JStr "queued") = Some (JStr "processing")); [| done].
    etrans; [| apply H; vm_compute; reflexivity]. vm_compute. reflexivity.
Qed.

(** *** Stale processing jobs *)



Lemma scan_job_store Date_parse env now job s :
  snd (scan_job Date_parse env now job s) = s.
Proof.
  unfold scan_job. repeat case_match; try reflexivity.
  unfold_m. by destruct (readJson _ _).
Qed.


Lemma scan_jobs_elem Date_parse env now jobs s q s' :
  scan_jobs Date_parse env now jobs s = (Ok q, s') ->
  s' = s
  /\ forall w, w ∈ q <-> exists job ids,
                 job ∈ jobs /\ scan_job Date_parse env now job s = (Ok ids, s)
                 /\ w ∈ ids.
Proof.
  revert q s'. induction jobs as [|job rest IH]; intros q s'.
  - intros [= <- <-]. split; [done |]. intros w. split.
    + by intros ?%elem_of_nil.
    + by intros (job & ids & ?%elem_of_nil & _).
  - cbn [scan_jobs]. unfold mbind, M_bind, bind at 1.
    pose proof (scan_job_store Date_parse env now job s) as Hstore.
    destruct (scan_job Date_parse env now job s) as [[ids|e] s1] eqn:Hjob;
      [| done]. cbn [snd] in Hstore. subst s1.
    unfold bind at 1.
    destruct (scan_jobs Date_parse env now rest s) as [[more|e] s2] eqn:Hrest;
      [| done].
    destruct (IH more s2 eq_refl) as [-> Hmore].
    intros [= <- <-]. split; [done |]. intros w.
    rewrite elem_of_app, Hmore. split.
    + intros [Hw | (job' & ids' & Hin & Hscan & Hw)].
      * exists job, ids. split; [apply list_elem_of_here | done].
      * exists job', ids'. split; [by apply list_elem_of_further | done].
    + intros (job' & ids' & Hin & Hscan & Hw).
      apply elem_of_cons in Hin as [-> | Hin].
      * left. rewrite Hjob in Hscan. by injection Hscan as <-.
      * right. eauto.
Qed.

Lemma scan_queue_jobs Date_parse env now s o jobs :
  queue s = Some (File (Serialised (JObj o))) ->
  o !! "jobs" = Some (JArr jobs) ->
  scan_queue Date_parse env now s = scan_jobs Date_parse env now jobs s.
Proof.
  intros Hq Hjobs. unfold scan_queue. unfold_m. rewrite Hq.
  change (readJson (Some (File (Serialised (JObj o)))) empty_queue) with (Ok (JObj o)).
  cbv beta iota. cbn [get_strict get]. by rewrite Hjobs.
Qed.

Lemma elem_of_dedupe_from seen ids w :
  w ∈ dedupe_from seen ids <-> w ∈ ids /\ w ∉ seen.
Proof.
  revert seen. induction ids as [|id rest IH]; intros seen; simpl.
  - split; [by intros ?%elem_of_nil | by intros [?%elem_of_nil _]].
  - case_bool_decide as Hseen.
    + rewrite IH, elem_of_cons. split; [intros [? ?]; eauto |].
      intros [[-> | ?] ?]; done.
    + rewrite !elem_of_cons, IH, elem_of_cons. split.
      * intros [-> | [? ?]]; [eauto |]. split; [eauto | tauto].
      * intros [[-> | ?] ?]; [by left |].
        destruct (decide (w = id)) as [-> | ?]; [by left | right; tauto].
Qed.

Lemma elem_of_dedupe ids w : w ∈ dedupe ids <-> w ∈ ids.
Proof.
  unfold dedupe. rewrite elem_of_dedupe_from. split; [tauto |].
  intros H. split; [done | by intros ?%elem_of_nil].
Qed.

Lemma discover_run Date_parse env clock s q :
  fst (scan_queue Date_parse env (nowMs clock) s) = Ok q ->
  snd (scan_queue Date_parse env (nowMs clock) s) = s ->
  exists s',
    discover Date_parse env clock s
    = (Ok (dedupe (q ++ scan_metadata env s ++ intake_found (nowIso clock) s)), s').
Proof.
  intros Hq Hs. unfold discover, intake_found.
  unfold mbind at 1, M_bind at 1, bind at 1.
  destruct (scan_queue Date_parse env (nowMs clock) s) as [r s1].
  cbn [fst snd] in *. subst r s1.
  unfold_m. unfold scan_intake.
  destruct (intake_readdir s); [by eexists |].
  destruct (scan_intake_entries _ _ s) as [ids s']. by eexists.
Qed.




End ProcessQueueProofs.

Module BookkeepingExtras.
Import JsString Regex Js FsJson Storage Config Repository ProcessQueue.
Import RepositoryProofs ProcessQueueProofs.

(** *** Names of metadata files *)

Lemma of_chars_chars s : of_chars (chars s) = s.
Proof. apply string_of_list_ascii_of_string. Qed.

Lemma chars_inj a b : chars a = chars b -> a = b.
Proof. intros H. by rewrite <- (of_chars_chars a), <- (of_chars_chars b), H. Qed.

Lemma string_app_inj_r (a b suffix : string) :
  a +:+ suffix = b +:+ suffix -> a = b.
Proof.
  intros H%(f_equal chars). rewrite !IdProofs.chars_app in H.
  by apply app_inv_tail, chars_inj in H.
Qed.

Lemma metadata_name_inj id id' : metadata_name id = metadata_name id' -> id = id'.
Proof. apply string_app_inj_r. Qed.



(** *** [updateQueueState] on the jobs *)








(** *** Attempts and start times *)





(** X4: whatever the target state, every entry [updateQueueState] writes
    for its id carries [started_at] only if the target state is
    [processing]; and if that held of every pending entry before the call
    it holds of every pending entry after it. *)
Theorem X4_updateQueueState_keeps_started_at_for_processing_only
    (id state now : string) (s : Store) :
  QueueWellFormed s ->
  fst (updateQueueState id state now s) = Ok tt
  /\ Forall started_only_while_processing
            (entries_for id (pending_jobs (snd (updateQueueState id state now s))))
  /\ (state <> "processing" ->
      Forall (fun e => truthy (get e "started_at") = false)
             (entries_for id (pending_jobs (snd (updateQueueState id state now s)))))
  /\ (Forall started_only_while_processing (pending_jobs s) ->
      Forall started_only_while_processing
             (pending_jobs (snd (updateQueueState id state now s)))).
Proof.
  intros Hwf. destruct (updateQueueState_run id state now s Hwf) as [o Hrun].
  rewrite Hrun. split; [done |]. cbn [snd]. rewrite pending_jobs_written.
  split; [| split].
  - rewrite entries_update_rec. apply Forall_app. split.
    + apply Forall_map, Forall_forall. intros job _.
      apply next_job_started_only_while_processing.
    + destruct (existsb _ _); [done |]. constructor; [| done].
      apply pushed_job_started_only_while_processing.
  - intros Hstate. rewrite entries_update_rec. apply Forall_app. split.
    + apply Forall_map, Forall_forall. intros job _.
      by apply next_job_started_at.
    + destruct (existsb _ _); [done |]. constructor; [| done].
      unfold pushed_job. cbn [get object_of].
      apply String.eqb_neq in Hstate. rewrite Hstate. by lookup_through.
  - apply update_rec_started_only_while_processing.
Qed.

Lemma X4_updateQueueState_keeps_started_at_for_processing_only_witness :
  Forall (fun e => truthy (get e "started_at") = false)
    (entries_for "ws_20260228_c0ffee"
       (pending_jobs (snd (updateQueueState "ws_20260228_c0ffee" "failed"
                             "2026-03-01T00:05:00.000Z" claimed_store)))).
Proof.
  assert (QueueWellFormed claimed_store) as Hwf.
  { split; [right; eexists; vm_compute; reflexivity |].
    assert (exists e, pending_jobs claimed_store = [JObj e]) as [e ->]
      by (eexists; vm_compute; reflexivity).
    by constructor. }
  destruct (X4_updateQueueState_keeps_started_at_for_processing_only
              "ws_20260228_c0ffee" "failed" "2026-03-01T00:05:00.000Z"
              claimed_store Hwf) as (_ & _ & H & _).
  apply H. discriminate.
Defined.

(** *** Whole runs *)












End BookkeepingExtras.

Module DiscoveryExtras.
Import JsString Regex Js FsJson Storage Config Repository ProcessQueue.
Import RepositoryProofs ProcessQueueProofs BookkeepingExtras.

Lemma scan_jobs_store Date_parse env now jobs s :
  snd (scan_jobs Date_parse env now jobs s) = s.
Proof.
  induction jobs as [|job rest IH]; [done |].
  cbn [scan_jobs]. unfold mbind, M_bind, bind at 1.
  pose proof (scan_job_store Date_parse env now job s) as Hjob.
  destruct (scan_job Date_parse env now job s) as [[ids|e] s1]; cbn [snd] in *;
    subst s1; [| done].
  unfold bind at 1.
  destruct (scan_jobs Date_parse env now rest s) as [[more|e] s2]; cbn [snd] in *;
    by subst s2.
Qed.

Lemma scan_queue_store Date_parse env now s :
  snd (scan_queue Date_parse env now s) = s.
Proof.
  unfold scan_queue. unfold_m.
  destruct (readJson (queue s) empty_queue) as [q|]; [| done]. cbv beta iota.
  destruct (get_strict q "jobs") as [[[]|]|]; try done.
  apply scan_jobs_store.
Qed.

Lemma discover_throw Date_parse env clock s e :
  fst (scan_queue Date_parse env (nowMs clock) s) = Throw e ->
  discover Date_parse env clock s = (Throw e, s).
Proof.
  intros He. pose proof (scan_queue_store Date_parse env (nowMs clock) s) as Hs.
  unfold discover. unfold mbind at 1, M_bind at 1, bind at 1.
  destruct (scan_queue Date_parse env (nowMs clock) s) as [r s1].
  cbn [fst snd] in *. by subst r s1.
Qed.

(** X7: without a target id, [resolveWorksheetIds] throws exactly when
    the pending-list scan throws, with the same error and without having
    written anything; whenever that scan returns, the call returns the
    ids of the three scans, deduplicated in discovery order: a metadata
    or intake directory that cannot be listed contributes no id and no
    error. *)
Theorem X7_discovery_fails_only_with_the_pending_list_scan
    (Date_parse : string -> option Z) (env : Env) (clock : Clock) (s : Store) :
  match fst (scan_queue Date_parse env (nowMs clock) s) with
  | Ok q =>
      exists s',
        resolveWorksheetIds Date_parse env None clock s
        = (Ok (dedupe (q ++ scan_metadata env s
                          ++ intake_found (nowIso clock) s)%list), s')
  | Throw e => resolveWorksheetIds Date_parse env None clock s = (Throw e, s)
  end
  /\ (metadata_readdir s <> None -> scan_metadata env s = [])
  /\ (intake_readdir s <> None ->
      intake_found (nowIso clock) s = []
      /\ snd (scan_intake (nowIso clock) s) = s).
Proof.
  split; [| split].
  - destruct (fst (scan_queue Date_parse env (nowMs clock) s)) as [q|e] eqn:Hq.
    + apply discover_run; [done | apply scan_queue_store].
    + by apply discover_throw.
  - unfold scan_metadata. by destruct (metadata_readdir s).
  - unfold intake_found, scan_intake. by destruct (intake_readdir s).
Qed.

(** *** The result has no duplicates *)

Lemma NoDup_dedupe_from seen ids : NoDup (dedupe_from seen ids).
Proof.
  revert seen. induction ids as [|id rest IH]; intros seen; simpl.
  - constructor.
  - case_bool_decide; [apply IH |]. constructor; [| apply IH].
    rewrite elem_of_dedupe_from. intros [_ Hseen]. apply Hseen, list_elem_of_here.
Qed.

Lemma NoDup_dedupe ids : NoDup (dedupe ids).
Proof. apply NoDup_dedupe_from. Qed.

Lemma dedupe_from_sublist seen ids : dedupe_from seen ids `sublist_of` ids.
Proof.
  revert seen. induction ids as [|id rest IH]; intros seen; simpl; [done |].
  case_bool_decide.
  - by apply sublist_cons.
  - by apply sublist_skip.
Qed.

Lemma scan_job_queued Date_parse env now job raw s :
  get job "worksheet_id" = Some (JStr raw) ->
  is_empty (trim raw) = false ->
  get job "state" = Some (JStr "queued") ->
  scan_job Date_parse env now job s = (Ok [trim raw], s).
Proof.
  intros Hid Hblank Hstate. unfold scan_job.
  destruct job; try discriminate. cbn [get_opt]. rewrite Hid. cbn [as_string].
  rewrite Hblank, Hstate. reflexivity.
Qed.

(** X8: when the pending-list scan returns, the list
    [resolveWorksheetIds] returns has no duplicates, keeps the discovery
    order (it is a subsequence of the ids of the pending-list scan, then
    the metadata scan, then the intake scan), contains exactly the ids
    those scans found, and among them the trimmed id of every pending job
    in state [queued] whose id is not blank. *)
Theorem X8_discovery_is_deduplicated_and_selects_queued_jobs
    (Date_parse : string -> option Z) (env : Env) (clock : Clock) (s : Store)
    (o : gmap string Json) (jobs : list Json) (q : list string) :
  queue s = Some (File (Serialised (JObj o))) ->
  o !! "jobs" = Some (JArr jobs) ->
  fst (scan_queue Date_parse env (nowMs clock) s) = Ok q ->
  exists ids s',
    resolveWorksheetIds Date_parse env None clock s = (Ok ids, s')
    /\ NoDup ids
    /\ ids `sublist_of` (q ++ scan_metadata env s ++ intake_found (nowIso clock) s)%list
    /\ (forall w, w ∈ ids <->
                  w ∈ q \/ w ∈ scan_metadata env s
                  \/ w ∈ intake_found (nowIso clock) s)
    /\ (forall job raw,
          job ∈ jobs -> get job "worksheet_id" = Some (JStr raw) ->
          is_empty (trim raw) = false -> get job "state" = Some (JStr "queued") ->
          trim raw ∈ ids).
Proof.
  intros Hq Hjobs Hscan.
  destruct (discover_run Date_parse env clock s q Hscan (scan_queue_store _ _ _ _))
    as [s' Hrun].
  eexists _, s'. split; [exact Hrun |]. split; [apply NoDup_dedupe |].
  split; [apply dedupe_from_sublist |]. split.
  - intros w. by rewrite elem_of_dedupe, !elem_of_app.
  - intros job raw Hin Hid Hblank Hstate. apply elem_of_dedupe, elem_of_app. left.
    rewrite (scan_queue_jobs _ _ _ _ _ _ Hq Hjobs) in Hscan.
    destruct (scan_jobs Date_parse env (nowMs clock) jobs s) as [r s1] eqn:Hjobs_run.
    cbn [fst] in Hscan. subst r.
    destruct (scan_jobs_elem _ _ _ _ _ _ _ Hjobs_run) as [_ Helem].
    apply Helem. exists job, [trim raw]. split; [done |].
    split; [by apply scan_job_queued | apply list_elem_of_here].
Qed.

Lemma X8_discovery_is_deduplicated_and_selects_queued_jobs_witness :
  exists ids s',
    resolveWorksheetIds Date_parse_iso default_env None sample_clock uploaded_store
    = (Ok ids, s')
    /\ NoDup ids /\ "ws_20260228_c0ffee" ∈ ids.
Proof.
  assert (exists o job,
            queue uploaded_store = Some (File (Serialised (JObj o)))
            /\ o !! "jobs" = Some (JArr [job])
            /\ get job "worksheet_id" = Some (JStr "ws_20260228_c0ffee")
            /\ get job "state" = Some (JStr "queued"))
    as (o & job & Hq & Hjobs & Hid & Hstate).
  { eexists _, _. split; [vm_compute; reflexivity |].
    split; [vm_compute; reflexivity |]. split; vm_compute; reflexivity. }
  destruct (X8_discovery_is_deduplicated_and_selects_queued_jobs Date_parse_iso
              default_env sample_clock uploaded_store o [job]
              ["ws_20260228_c0ffee"] Hq Hjobs)
    as (ids & s' & Hrun & Hnodup & _ & _ & Hqueued).
  - vm_compute. reflexivity.
  - exists ids, s'. split; [exact Hrun |]. split; [exact Hnodup |].
    apply (Hqueued job "ws_20260228_c0ffee");
      [apply list_elem_of_here | exact Hid | reflexivity | exact Hstate].
Defined.

(** *** Records recovered from the intake folders *)

Lemma readJson_inv node v :
  readJson node JNull = Ok v ->
  node = Some (File (Serialised v)) \/ (node = None /\ v = JNull).
Proof.
  destruct node as [[| c | [raw | v']] |]; try discriminate.
  - destruct c; discriminate.
  - intros [= ->]. by left.
  - intros [= <-]. by right.
Qed.

Lemma readJson_truthy node v :
  readJson node JNull = Ok v -> truthy (Some v) = true ->
  node = Some (File (Serialised v)).
Proof.
  intros Hread Htruthy. destruct (readJson_inv _ _ Hread) as [-> | [_ ->]]; done.
Qed.

Lemma recovered_metadata_queued id uploadedAt :
  truthy (Some (recovered_metadata id uploadedAt))
  && strict_eq_str (get (recovered_metadata id uploadedAt) "state") "queued" = true.
Proof. reflexivity. Qed.

Lemma ensure_throw id zip now s e :
  readJson (metadata s !! metadata_name id) JNull = Throw e ->
  ensureMetadataFromIntake id zip now s = (Throw e, s).
Proof.
  intros Hread. unfold ensureMetadataFromIntake. unfold_m. unfold read_metadata.
  by rewrite Hread.
Qed.

Lemma ensure_existing id zip now s v :
  readJson (metadata s !! metadata_name id) JNull = Ok v ->
  truthy (Some v) = true ->
  ensureMetadataFromIntake id zip now s = (Ok v, s).
Proof.
  intros Hread Htruthy. unfold ensureMetadataFromIntake. unfold_m.
  unfold read_metadata. rewrite Hread. cbv beta iota. by rewrite Htruthy.
Qed.

Lemma ensure_recovers id zip now s v :
  readJson (metadata s !! metadata_name id) JNull = Ok v ->
  truthy (Some v) = false ->
  ensureMetadataFromIntake id zip now s
  = (Ok (recovered_metadata id (default now (mtime zip))),
     set_metadata (metadata_name id)
       (File (Serialised (recovered_metadata id (default now (mtime zip))))) s).
Proof.
  intros Hread Htruthy. unfold ensureMetadataFromIntake. unfold_m.
  unfold read_metadata. rewrite Hread. cbv beta iota. by rewrite Htruthy.
Qed.

(** X9: [ensureMetadataFromIntake] creates a record only where none can
    be used: a readable, truthy record is returned as it is and nothing is
    written; an unreadable one throws and nothing is written; an absent
    file (or one that holds a falsy JSON value) is replaced by a queued
    record of the worksheet, dated by the archive's modification time or,
    without one, by the current time.  Only that worksheet's metadata file
    can change, and a second call, whatever archive time and clock it
    sees, returns the first call's outcome and leaves its store. *)
Theorem X9_ensureMetadataFromIntake_creates_a_record_once
    (worksheetId : string) (zip : Artifact) (now : string) (s : Store) :
  let name := metadata_name worksheetId in
  let run := ensureMetadataFromIntake worksheetId zip now s in
  match readJson (metadata s !! name) JNull with
  | Throw e => run = (Throw e, s)
  | Ok existing =>
      if truthy (Some existing) then run = (Ok existing, s)
      else
        let record := recovered_metadata worksheetId (default now (mtime zip)) in
        fst run = Ok record
        /\ metadata (snd run) !! name = Some (File (Serialised record))
        /\ get record "state" = Some (JStr "queued")
        /\ get record "worksheet_id" = Some (JStr worksheetId)
        /\ get record "uploaded_at" = Some (JStr (default now (mtime zip)))
  end
  /\ (forall other, other <> name ->
                    metadata (snd run) !! other = metadata s !! other)
  /\ queue (snd run) = queue s /\ intake (snd run) = intake s
  /\ (forall zip' now',
        ensureMetadataFromIntake worksheetId zip' now' (snd run) = run).
Proof.
  intros name run. subst name run.
  destruct (readJson (metadata s !! metadata_name worksheetId) JNull)
    as [existing | e] eqn:Hread.
  - destruct (truthy (Some existing)) eqn:Htruthy.
    + rewrite (ensure_existing _ _ _ _ _ Hread Htruthy). cbn [fst snd].
      repeat split. intros zip' now'. by apply ensure_existing.
    + rewrite (ensure_recovers _ _ _ _ _ Hread Htruthy). cbn [fst snd].
      split; [| split; [| split; [| split]]].
      * split; [done |]. split; [apply lookup_insert_eq |]. by repeat split.
      * intros other Hne. cbn. by rewrite lookup_insert_ne.
      * done.
      * done.
      * intros zip' now'. apply ensure_existing; [| done].
        cbn [set_metadata metadata]. by rewrite lookup_insert_eq.
  - rewrite (ensure_throw _ _ _ _ _ Hread). cbn [fst snd].
    repeat split. intros zip' now'. by apply ensure_throw.
Qed.

Local Ltac skip_entry IH Hnodup Hrest_readable Hin :=
  let Hrun := fresh "Hrun" in
  let Hother := fresh "Hother" in
  let Hkept := fresh "Hkept" in
  let Hframe := fresh "Hframe" in
  let Hheal := fresh "Hheal" in
  let Hname := fresh "Hname" in
  intros Hrun;
  match type of Hrun with
  | scan_intake_entries _ _ ?s = (?found, ?s2) =>
      destruct (IH s found s2 Hnodup (Hrest_readable s (fun _ _ => eq_refl)) Hrun)
        as (Hother & Hkept & Hframe & Hheal)
  end;
  split; [exact Hother |]; split; [exact Hkept |]; split;
  [ intros ? Hname; apply Hframe; intros ? ?; apply Hname;
    rewrite fmap_cons; by apply elem_of_cons; right
  | intros ? ? Hin ?; apply Hheal; [| done] ].

Lemma scan_intake_entries_spec now entries : forall s found s2,
  NoDup entries.*1 ->
  (forall id e, (id, e) ∈ entries ->
                is_ok (readJson (metadata s !! metadata_name id) JNull) = true) ->
  scan_intake_entries now entries s = (found, s2) ->
  (queue s2 = queue s /\ intake s2 = intake s
   /\ metadata_readdir s2 = metadata_readdir s
   /\ intake_readdir s2 = intake_readdir s)
  /\ (forall name v, metadata s !! name = Some (File (Serialised v)) ->
                     truthy (Some v) = true ->
                     metadata s2 !! name = Some (File (Serialised v)))
  /\ (forall name, (forall id, id ∈ entries.*1 -> name <> metadata_name id) ->
                   metadata s2 !! name = metadata s !! name)
  /\ (forall id zip,
        (id, WorksheetDir (Some zip)) ∈ entries ->
        Id.isWorksheetId (Some (JStr id)) = true ->
        has_metadata s2 id
        /\ (forall v, readJson (metadata s !! metadata_name id) JNull = Ok v ->
                      truthy (Some v) = false ->
                      id ∈ found
                      /\ metadata s2 !! metadata_name id
                         = Some (File (Serialised
                                   (recovered_metadata id (default now (mtime zip))))))).
Proof.
  induction entries as [| [id0 e0] rest IH]; intros s found s2 Hnodup Hreadable.
  - intros [= <- <-]. split; [done |]. split; [done |]. split; [done |].
    by intros ? ? ?%elem_of_nil.
  - rewrite fmap_cons in Hnodup. apply NoDup_cons in Hnodup as [Hfresh Hnodup].
    cbn [fst] in Hfresh.
    assert (forall s1,
              (forall name, name <> metadata_name id0 ->
                            metadata s1 !! name = metadata s !! name) ->
              forall id e, (id, e) ∈ rest ->
                is_ok (readJson (metadata s1 !! metadata_name id) JNull) = true)
      as Hrest_readable.
    { intros s1 Hframe id e Hin. rewrite Hframe.
      - apply (Hreadable id e). by apply elem_of_cons; right.
      - intros Heq%metadata_name_inj. subst id. apply Hfresh.
        apply list_elem_of_fmap. by exists (id0, e). }
    cbn [scan_intake_entries].
    destruct e0 as [| [zip0 |]].
    + skip_entry IH Hnodup Hrest_readable Hin.
      by apply elem_of_cons in Hin as [[= _ ?] | ?].
    + destruct (Id.isWorksheetId (Some (JStr id0))) eqn:Hvalid0.
      2:{ skip_entry IH Hnodup Hrest_readable Hin.
          apply elem_of_cons in Hin as [[= -> _] | ?]; [congruence | done]. }
      pose proof (Hreadable id0 _ (list_elem_of_here _ _)) as Hread0.
      destruct (readJson (metadata s !! metadata_name id0) JNull) as [v0 |] eqn:Hv0;
        [clear Hread0 | discriminate].
      destruct (truthy (Some v0)) eqn:Htruthy0.
      * rewrite (ensure_existing _ _ _ _ _ Hv0 Htruthy0).
        destruct (scan_intake_entries now rest s) as [more s''] eqn:Hrun.
        destruct (IH s more s'' Hnodup (Hrest_readable s (fun _ _ => eq_refl)) Hrun)
          as (Hother & Hkept & Hframe & Hheal).
        intros Hresult.
        assert (s'' = s2 /\ forall w, w ∈ more -> w ∈ found) as [-> Hmore].
        { rewrite Htruthy0 in Hresult. cbn [andb] in Hresult.
          destruct (strict_eq_str _ _); injection Hresult as <- <-;
            (split; [done |]); intros w Hw; [by apply elem_of_cons; right | done]. }
        split; [exact Hother |]. split; [exact Hkept |]. split.
        { intros name Hname. apply Hframe. intros id Hid. apply Hname.
          rewrite fmap_cons. by apply elem_of_cons; right. }
        intros id zip [[= -> ->] | Hin]%elem_of_cons Hvalid.
        -- split.
           ++ exists v0. split; [| done]. apply Hkept; [| done].
              by apply readJson_truthy.
           ++ intros v Hv Hfalsy. congruence.
        -- destruct (Hheal id zip Hin Hvalid) as [Hhas Hnew]. split; [done |].
           intros v Hv Hfalsy. destruct (Hnew v Hv Hfalsy). auto.
      * rewrite (ensure_recovers _ _ _ _ _ Hv0 Htruthy0).
        set (record := recovered_metadata id0 (default now (mtime zip0))).
        set (s1 := set_metadata (metadata_name id0) (File (Serialised record)) s).
        assert (forall name, name <> metadata_name id0 ->
                             metadata s1 !! name = metadata s !! name) as Hs1.
        { intros name Hne. subst s1. cbn. by rewrite lookup_insert_ne. }
        destruct (scan_intake_entries now rest s1) as [more s''] eqn:Hrun.
        destruct (IH s1 more s'' Hnodup (Hrest_readable s1 Hs1) Hrun)
          as (Hother & Hkept & Hframe & Hheal).
        subst record. rewrite recovered_metadata_queued. intros [= <- <-].
        split; [exact Hother |]. split; [| split].
        { intros name v Hname Htruthy. apply Hkept; [| done].
          rewrite Hs1; [done |]. intros ->. rewrite Hname in Hv0.
          injection Hv0 as ->. congruence. }
        { intros name Hname. rewrite Hframe.
          - apply Hs1. apply Hname. rewrite fmap_cons. apply list_elem_of_here.
          - intros id Hid. apply Hname. rewrite fmap_cons.
            by apply elem_of_cons; right. }
        intros id zip [[= -> ->] | Hin]%elem_of_cons Hvalid.
        -- assert (metadata s'' !! metadata_name id0
                   = Some (File (Serialised
                             (recovered_metadata id0 (default now (mtime zip0))))))
             as Hrecord.
           { apply Hkept; [| done]. subst s1. cbn. apply lookup_insert_eq. }
           split; [by eexists |]. intros _ _ _. split; [apply list_elem_of_here | done].
        -- destruct (Hheal id zip Hin Hvalid) as [Hhas Hnew]. split; [done |].
           intros v Hv Hfalsy.
           assert (id <> id0) as Hne.
           { intros ->. apply Hfresh. apply list_elem_of_fmap.
             by exists (id0, WorksheetDir (Some zip)). }
           rewrite <- Hs1 in Hv by (by intros ?%metadata_name_inj).
           destruct (Hnew v Hv Hfalsy). split; [by apply elem_of_cons; right | done].
    + skip_entry IH Hnodup Hrest_readable Hin.
      by apply elem_of_cons in Hin as [[= _ ?] | ?].
Qed.

Lemma scan_intake_entries_found now entries : forall s id,
  id ∈ fst (scan_intake_entries now entries s) ->
  exists zip, (id, WorksheetDir (Some zip)) ∈ entries
              /\ Id.isWorksheetId (Some (JStr id)) = true.
Proof.
  induction entries as [| [id0 e0] rest IH]; intros s id.
  - by intros ?%elem_of_nil.
  - assert (forall s1, id ∈ fst (scan_intake_entries now rest s1) ->
              exists zip, (id, WorksheetDir (Some zip)) ∈ (id0, e0) :: rest
                          /\ Id.isWorksheetId (Some (JStr id)) = true) as Hrest.
    { intros s1 Hin. destruct (IH s1 id Hin) as (zip & ? & ?).
      exists zip. split; [by apply elem_of_cons; right | done]. }
    cbn [scan_intake_entries]. destruct e0 as [| [zip0 |]]; [apply Hrest | | apply Hrest].
    destruct (Id.isWorksheetId (Some (JStr id0))) eqn:Hvalid0; [| apply Hrest].
    destruct (ensureMetadataFromIntake id0 zip0 now s) as [[md | e] s1].
    + destruct (scan_intake_entries now rest s1) as [more s''] eqn:Hrun.
      destruct (truthy (Some md) && strict_eq_str (get md "state") "queued"); cbn [fst].
      * intros [-> | Hin]%elem_of_cons.
        -- exists zip0. split; [apply list_elem_of_here | done].
        -- apply (Hrest s1). by rewrite Hrun.
      * intros Hin. apply (Hrest s1). by rewrite Hrun.
    + by intros ?%elem_of_nil.
Qed.

(** X10: the intake scan of [resolveWorksheetIds] repairs uploads whose
    metadata record is missing.  When [intake/] can be listed and the
    metadata file of each of its entries is absent or readable, then after
    the scan every folder that is named by a worksheet id and holds
    [original.zip] has a metadata record; one that had none (or a falsy
    one) now has a queued record, dated by the archive, and its id is
    among the ids found.  The scan overwrites no existing truthy record,
    leaves the pending list alone and finds only ids of such folders. *)
Theorem X10_intake_scan_recovers_missing_metadata
    (now : string) (s : Store) :
  intake_readdir s = None ->
  (forall id e, intake s !! id = Some e ->
                is_ok (readJson (metadata s !! metadata_name id) JNull) = true) ->
  let s' := snd (scan_intake now s) in
  (forall id zip,
     intake s !! id = Some (WorksheetDir (Some zip)) ->
     Id.isWorksheetId (Some (JStr id)) = true ->
     has_metadata s' id
     /\ (forall v, readJson (metadata s !! metadata_name id) JNull = Ok v ->
                   truthy (Some v) = false ->
                   id ∈ intake_found now s
                   /\ metadata s' !! metadata_name id
                      = Some (File (Serialised
                                (recovered_metadata id (default now (mtime zip)))))))
  /\ (forall name v, metadata s !! name = Some (File (Serialised v)) ->
                     truthy (Some v) = true ->
                     metadata s' !! name = Some (File (Serialised v)))
  /\ (forall name, (forall id, name = metadata_name id -> intake s !! id = None) ->
                   metadata s' !! name = metadata s !! name)
  /\ queue s' = queue s /\ intake s' = intake s
  /\ (forall id, id ∈ intake_found now s ->
                 exists zip, intake s !! id = Some (WorksheetDir (Some zip))
                             /\ Id.isWorksheetId (Some (JStr id)) = true).
Proof.
  intros Hlist Hreadable s'. subst s'. unfold intake_found, scan_intake.
  rewrite Hlist.
  pose proof (scan_intake_entries_found now (map_to_list (intake s)) s) as Hfound.
  destruct (scan_intake_entries now (map_to_list (intake s)) s) as [found s2] eqn:Hrun.
  cbn [fst snd] in *.
  destruct (scan_intake_entries_spec now (map_to_list (intake s)) s found s2)
    as ((Hqueue & Hintake & _) & Hkept & Hframe & Hheal).
  { apply NoDup_fst_map_to_list. }
  { intros id e Hin%elem_of_map_to_list. by apply (Hreadable id e). }
  { exact Hrun. }
  split; [| split; [exact Hkept | split; [| split; [exact Hqueue | split; [exact Hintake |]]]]].
  - intros id zip Hin Hvalid. apply Hheal; [| done]. by apply elem_of_map_to_list.
  - intros name Hname. apply Hframe. intros id [[id' e] [-> Hin]]%list_elem_of_fmap ->.
    apply elem_of_map_to_list in Hin. cbn in Hin.
    rewrite (Hname id' eq_refl) in Hin. discriminate.
  - intros id Hin. destruct (Hfound id Hin) as (zip & Hzip & Hvalid).
    exists zip. split; [by apply elem_of_map_to_list | done].
Qed.

Lemma X10_intake_scan_recovers_missing_metadata_witness :
  has_metadata (snd (scan_intake "2026-02-28T10:05:00.000Z" orphan_store))
    "ws_20260228_c0ffee"
  /\ "ws_20260228_c0ffee" ∈ intake_found "2026-02-28T10:05:00.000Z" orphan_store.
Proof.
  assert (forall id e, intake orphan_store !! id = Some e ->
            is_ok (readJson (metadata orphan_store !! metadata_name id) JNull) = true)
    as Hreadable.
  { intros id e _. reflexivity. }
  destruct (X10_intake_scan_recovers_missing_metadata "2026-02-28T10:05:00.000Z"
              orphan_store eq_refl Hreadable) as (Hheal & _).
  destruct (Hheal "ws_20260228_c0ffee" (mkArtifact None)) as [Hhas Hnew].
  - vm_compute. reflexivity.
  - vm_compute. reflexivity.
  - split; [exact Hhas |]. destruct (Hnew JNull); [reflexivity | reflexivity |].
    assumption.
Defined.

(** *** The command line *)

Lemma slice_from_ws v : slice_from (String.length "--ws=") ("--ws=" +:+ v) = v.
Proof. unfold slice_from. cbv -[of_chars chars]. apply of_chars_chars. Qed.

Lemma startsWith_ws v : startsWith ("--ws=" +:+ v) "--ws=" = true.
Proof. unfold startsWith. cbv -[String.prefix]. cbn. by destruct v. Qed.

Lemma find_first {A} (f : A -> bool) pre x post :
  Forall (fun a => f a = false) pre -> f x = true ->
  List.find f (pre ++ x :: post) = Some x.
Proof.
  intros Hpre Hx. induction Hpre as [| a pre Ha _ IH]; cbn.
  - by rewrite Hx.
  - by rewrite Ha.
Qed.

Lemma find_none {A} (f : A -> bool) l :
  Forall (fun a => f a = false) l -> List.find f l = None.
Proof.
  intros Hl. induction Hl as [| a l Ha _ IH]; cbn; [done |]. by rewrite Ha.
Qed.

(** X11: the first [--ws=] argument of the command line gives the target.
    Its value is trimmed; when something is left, [resolveWorksheetIds]
    returns that one id without reading the store, and when the value is
    blank the call discovers the worksheets as if no target were given.
    Arguments before it that do not start with [--ws=], and everything
    after it, play no part; without any such argument there is no
    target. *)
Theorem X11_first_ws_argument_is_the_target
    (Date_parse : string -> option Z) (env : Env) (clock : Clock) (s : Store)
    (pre post : list string) (v : string) :
  Forall (fun arg => startsWith arg "--ws=" = false) pre ->
  let target := args_worksheetId (parseArgs (pre ++ ("--ws=" +:+ v) :: post)) in
  target = Some (trim v)
  /\ resolveWorksheetIds Date_parse env target clock s
     = (if is_empty (trim v) then resolveWorksheetIds Date_parse env None clock s
        else (Ok [trim v], s))
  /\ args_worksheetId (parseArgs pre) = None.
Proof.
  intros Hpre target. subst target. unfold parseArgs. cbn [args_worksheetId].
  rewrite (find_first _ pre ("--ws=" +:+ v) post Hpre (startsWith_ws v)).
  rewrite (find_none _ pre Hpre), slice_from_ws.
  split; [done |]. split; [| done].
  unfold resolveWorksheetIds. cbn [fmap option_fmap option_map truthy].
  by destruct (is_empty (trim v)).
Qed.

Lemma X11_first_ws_argument_is_the_target_witness :
  resolveWorksheetIds Date_parse_iso default_env
    (args_worksheetId
       (parseArgs ["--mode=manual"; "--ws= ws_20260228_c0ffee "; "--ws=other"]))
    sample_clock uploaded_store
  = (Ok ["ws_20260228_c0ffee"], uploaded_store).
Proof.
  destruct (X11_first_ws_argument_is_the_target Date_parse_iso default_env
              sample_clock uploaded_store ["--mode=manual"] ["--ws=other"]
              " ws_20260228_c0ffee ") as (_ & Hrun & _).
  - repeat constructor.
  - exact Hrun.
Defined.

End DiscoveryExtras.

Module ConfigExtras.
Import JsString Regex Js Config RegexFacts.

(** *** Literal words and unanchored patterns *)

Lemma eqb_ci_chars_cons x a y b :
  eqb_ci_chars (x :: a) (y :: b) = eqb_ci x y && eqb_ci_chars a b.
Proof. reflexivity. Qed.

Lemma lang_seq_lit_i (cs l : list ascii) :
  lang (seq_of lit_i cs) l <-> eqb_ci_chars cs l = true.
Proof.
  revert l. induction cs as [| c cs IH]; intros l.
  - cbn. rewrite lang_Eps. by destruct l.
  - destruct cs as [| c' cs'].
    + cbn [seq_of]. unfold lit_i. rewrite lang_Chr. split.
      * intros (x & -> & Hx). cbn. by rewrite Hx.
      * destruct l as [| x [| y l]]; cbn; try done.
        -- rewrite andb_true_r. intros Hx. by exists x.
        -- by rewrite andb_false_r.
    + change (seq_of lit_i (c :: c' :: cs'))
        with (Cat (lit_i c) (seq_of lit_i (c' :: cs'))).
      rewrite lang_Cat. unfold lit_i at 1. split.
      * intros (s1 & s2 & -> & (x & -> & Hx)%lang_Chr & Hrest%IH).
        change ([x] ++ s2)%list with (x :: s2).
        by rewrite eqb_ci_chars_cons, Hx, Hrest.
      * destruct l as [| x l]; [done |]. rewrite eqb_ci_chars_cons.
        intros [Hx Hrest]%andb_true_iff. exists [x], l. split; [done |].
        split; [apply lang_Chr; by exists x | by apply IH].
Qed.

Lemma test_anchored_str_i w s :
  test_anchored (str_i w) s = equals_ignoring_case w s.
Proof.
  unfold test_anchored, str_i, equals_ignoring_case.
  apply eq_true_iff_eq. rewrite matches_lang. apply lang_seq_lit_i.
Qed.

Lemma matches_Alt r1 r2 s : matches (Alt r1 r2) s = matches r1 s || matches r2 s.
Proof.
  apply eq_true_iff_eq. rewrite orb_true_iff, !matches_lang. apply lang_Alt.
Qed.

Lemma matches_prefix_lang r : forall s,
  matches_prefix r s = true <-> exists w post, s = (w ++ post)%list /\ lang r w.
Proof.
  intros s. revert r. induction s as [| c s IH]; intros r; cbn [matches_prefix].
  - rewrite orb_false_r, nullable_lang. split.
    + intros Hr. by exists [], [].
    + intros (w & post & Hs & Hw). symmetry in Hs.
      apply app_eq_nil in Hs as [-> _]. done.
  - rewrite orb_true_iff, nullable_lang, IH. split.
    + intros [Hr | (w & post & -> & Hw)].
      * by exists [], (c :: s).
      * exists (c :: w), post. split; [done |]. by apply deriv_lang.
    + intros ([| x w] & post & Hs & Hw); [by left |].
      injection Hs as <- ->. right. exists w, post. split; [done |].
      by apply deriv_lang.
Qed.

Lemma search_lang r : forall s,
  search r s = true
  <-> exists pre w post, s = (pre ++ w ++ post)%list /\ lang r w.
Proof.
  induction s as [| c s IH]; cbn [search].
  - rewrite orb_false_r, matches_prefix_lang. split.
    + intros (w & post & Hs & Hw). by exists [], w, post.
    + intros (pre & w & post & Hs & Hw). symmetry in Hs.
      apply app_eq_nil in Hs as [-> Hs]. by exists w, post.
  - rewrite orb_true_iff, matches_prefix_lang, IH. split.
    + intros [(w & post & Hs & Hw) | (pre & w & post & -> & Hw)].
      * by exists [], w, post.
      * by exists (c :: pre), w, post.
    + intros ([| x pre] & w & post & Hs & Hw).
      * left. by exists w, post.
      * injection Hs as <- ->. right. by exists pre, w, post.
Qed.

Lemma test_wrapped r pre text post :
  test r text = true -> test r (pre +:+ text +:+ post) = true.
Proof.
  unfold test. rewrite !search_lang, !IdProofs.chars_app.
  intros (a & w & b & -> & Hw).
  exists (chars pre ++ a)%list, w, (b ++ chars post)%list.
  split; [| done]. by rewrite <- !app_assoc.
Qed.

(** X12: [isTruthyEnv] gives the fallback for a variable that is unset
    or empty, and for any other value it answers [false] exactly when the
    trimmed value is one of the words 0, false, no and off, in any letter
    case.  So a value that is not empty but blank (only white space) reads
    as [true] whatever the fallback is. *)
Theorem X12_isTruthyEnv_is_false_on_four_words_only
    (value : option string) (fallback : bool) :
  isTruthyEnv value fallback
  = match value with
    | None => fallback
    | Some s =>
        if is_empty s then fallback
        else negb (existsb (fun word => equals_ignoring_case word (trim s))
                           falsy_words)
    end
  /\ (forall s, value = Some s -> is_empty s = false -> is_empty (trim s) = true ->
                isTruthyEnv value fallback = true).
Proof.
  assert (forall s, test_anchored falsyEnvPattern s
                    = existsb (fun word => equals_ignoring_case word s) falsy_words)
    as Hwords.
  { intros s. unfold falsyEnvPattern, test_anchored.
    rewrite !matches_Alt. cbn [existsb falsy_words].
    rewrite orb_false_r, <- !test_anchored_str_i. reflexivity. }
  split.
  - destruct value as [s |]; [| done]. unfold isTruthyEnv.
    destruct (is_empty s); [done |]. by rewrite Hwords.
  - intros s -> Hs Hblank. unfold isTruthyEnv. rewrite Hs, Hwords.
    destruct (trim s); [reflexivity | discriminate].
Qed.

Lemma isRetryableFailure_text text :
  isRetryableFailure (Some (JStr text))
  = existsb (fun pattern => test pattern text) RETRYABLE_FAILURE_PATTERNS.
Proof.
  unfold isRetryableFailure, or_else. cbn [truthy].
  by destruct text.
Qed.

(** X13: [isRetryableFailure] looks for its patterns anywhere in the
    message, so a retryable message stays retryable inside any longer
    message; a message that contains ETIMEDOUT or ECONNRESET, in any letter
    case, is retryable; and a falsy message ([undefined], [null], the empty
    string, 0, [false]) never is. *)
Theorem X13_isRetryableFailure_survives_wrapping (pre post : string) :
  (forall text,
     isRetryableFailure (Some (JStr text)) = true ->
     isRetryableFailure (Some (JStr (pre +:+ text +:+ post))) = true)
  /\ (forall word,
        equals_ignoring_case "ETIMEDOUT" word = true
        \/ equals_ignoring_case "ECONNRESET" word = true ->
        isRetryableFailure (Some (JStr (pre +:+ word +:+ post))) = true)
  /\ (forall v, truthy v = false -> isRetryableFailure v = false).
Proof.
  split; [| split].
  - intros text Htext. rewrite isRetryableFailure_text in *.
    apply existsb_exists in Htext as (pattern & Hin & Htest).
    apply existsb_exists. exists pattern. split; [done |]. by apply test_wrapped.
  - intros word Hword. rewrite isRetryableFailure_text.
    assert (forall w, In (str_i w) RETRYABLE_FAILURE_PATTERNS ->
                      equals_ignoring_case w word = true ->
                      existsb (fun pattern => test pattern (pre +:+ word +:+ post))
                              RETRYABLE_FAILURE_PATTERNS = true) as Hfound.
    { intros w Hin Hw. apply existsb_exists. exists (str_i w). split; [done |].
      apply test_wrapped. unfold test. apply search_lang.
      exists [], (chars word), []. split; [by rewrite app_nil_r |].
      by apply lang_seq_lit_i. }
    destruct Hword as [Hw | Hw]; [apply (Hfound "ETIMEDOUT") | apply (Hfound "ECONNRESET")];
      try done; cbn; tauto.
  - intros v Hv.
    assert (to_string (or_else v (Some (JStr ""))) = "") as Hempty.
    { unfold or_else. by rewrite Hv. }
    unfold isRetryableFailure. rewrite Hempty. reflexivity.
Qed.

Lemma X13_isRetryableFailure_survives_wrapping_witness :
  isRetryableFailure
    (Some (JStr ("npm install failed (1)" +:+ "connect ETIMEDOUT 104.16.0.35:443"
                 +:+ " (will retry)"))) = true.
Proof.
  destruct (X13_isRetryableFailure_survives_wrapping "npm install failed (1)"
              " (will retry)") as [Hwrapped _].
  apply (Hwrapped "connect ETIMEDOUT 104.16.0.35:443"). reflexivity.
Defined.

Lemma X12_isTruthyEnv_is_false_on_four_words_only_witness :
  isTruthyEnv (Some "  ") false = true.
Proof.
  destruct (X12_isTruthyEnv_is_false_on_four_words_only (Some "  ") false)
    as [_ Hblank].
  apply (Hblank "  "); reflexivity.
Defined.

(** *** Numbers of the settings *)



End ConfigExtras.

Module SupervisorExtras.
Import JsString Js Config Supervisor SupervisorProofs.

Lemma start_escalation c : Escalation c (start c).
Proof.
  split; [done |]. left. unfold start. cbn.
  destruct (Z.ltb_spec 0 (timeoutMs c)); auto.
Qed.

Lemma step_escalation c st now ev :
  Escalation c st -> Escalation c (step c st now ev).
Proof.
  intros Hesc. pose proof Hesc as [Hdone Hsig].
  destruct ev as [d | d | error | code | []].
  - done.
  - done.
  - unfold step, finalize. destruct (finished st) eqn:Hfin; [exact Hesc |].
    split; [done |]. cbn.
    destruct Hsig as [(Hs & _ & _) | (t1 & Hpos & Hdue & _ & [[Hs _] | (t2 & Hk & _ & Hs)])].
    + left. auto.
    + right. exists t1. repeat split; auto.
    + right. exists t1. repeat split; auto. right. by exists t2.
  - unfold step, finalize. destruct (finished st) eqn:Hfin; [exact Hesc |].
    split; [done |]. cbn.
    destruct Hsig as [(Hs & _ & _) | (t1 & Hpos & Hdue & _ & [[Hs _] | (t2 & Hk & _ & Hs)])].
    + left. auto.
    + right. exists t1. repeat split; auto.
    + right. exists t1. repeat split; auto. right. by exists t2.
  - unfold step. destruct (due (pending_timeout st) now) eqn:Hfire; [| exact Hesc].
    destruct (pending_timeout st) as [t |] eqn:Hpt; [| done]. cbn in Hfire.
    apply Z.leb_le in Hfire.
    destruct Hsig as [(Hs & Hhk & [? | [Hpos Ht]]) | (t1 & _ & _ & ? & _)];
      try congruence.
    injection Ht as ->.
    destruct (finished st) eqn:Hfin.
    { destruct (Hdone eq_refl). congruence. }
    split; [cbn; congruence |]. right. exists now. cbn.
    split; [done |]. split; [done |]. split; [done |]. left.
    rewrite Hs. split; [done |]. right. by split.
  - unfold step. destruct (due (pending_hardKill st) now) eqn:Hfire; [| exact Hesc].
    destruct (pending_hardKill st) as [t |] eqn:Hhk; [| done]. cbn in Hfire.
    apply Z.leb_le in Hfire.
    destruct Hsig as [(_ & ? & _)
                     | (t1 & Hpos & Hdue & Hpt & [[Hs [? | [Hfin Ht]]] | (t2 & _ & ? & _)])];
      try congruence.
    injection Ht as ->. rewrite Hfin. split; [cbn; congruence |].
    right. exists t1. cbn. split; [done |]. split; [done |]. split; [done |].
    right. exists now. rewrite Hs. by repeat split.
Qed.

Lemma exec_escalation c st trace :
  Escalation c st -> Escalation c (exec c st trace).
Proof.
  revert st. induction trace as [| [now ev] rest IH]; intros st H; cbn; [done |].
  by apply IH, step_escalation.
Qed.


Lemma step_finished_frozen c st now ev :
  Escalation c st -> finished st = true ->
  finished (step c st now ev) = true
  /\ promise (step c st now ev) = promise st
  /\ signals (step c st now ev) = signals st.
Proof.
  intros [Hdone _] Hfin. destruct (Hdone Hfin) as [Hpt Hhk].
  destruct ev as [d | d | error | code | []]; unfold step, finalize;
    rewrite ?Hfin, ?Hpt, ?Hhk; done.
Qed.

Lemma exec_finished_frozen c trace : forall st,
  Escalation c st -> finished st = true ->
  finished (exec c st trace) = true
  /\ promise (exec c st trace) = promise st
  /\ signals (exec c st trace) = signals st.
Proof.
  induction trace as [| [now ev] rest IH]; intros st Hesc Hfin; cbn; [done |].
  destruct (step_finished_frozen c st now ev Hesc Hfin) as (Hf & Hp & Hs).
  destruct (IH _ (step_escalation c st now ev Hesc) Hf) as (Hf' & Hp' & Hs').
  by rewrite Hf', Hp', Hs', Hp, Hs.
Qed.

Lemma finished_settled c trace : forall st,
  (finished st = true -> promise st <> None) ->
  finished (exec c st trace) = true -> promise (exec c st trace) <> None.
Proof.
  induction trace as [| [now ev] rest IH]; intros st Hst; cbn; [done |].
  apply IH. destruct ev as [d | d | error | code | []]; unfold step, finalize; cbn;
    try done.
  - destruct (finished st) eqn:Hfin; [intros _; by apply Hst |].
    cbn. by destruct (promise st).
  - destruct (finished st) eqn:Hfin; [intros _; by apply Hst |].
    cbn. by destruct (promise st).
  - destruct (due _ _); [| done].
    destruct (finished st) eqn:Hfin; cbn; [intros _; by apply Hst | done].
  - by destruct (due _ _).
Qed.

(** X16: the promise of [run] settles once, with the first outcome.  An
    [error] event of the child that arrives before the call has finished
    rejects the promise with that very error; and once the call has
    finished (after the first [close] or [error]) the promise is settled,
    and no later event, of the child or of a timer, changes the outcome
    or sends a signal. *)
Theorem X16_run_settles_once
    (c : Call) (pre post : list (Z * Event)) (now : Z) (error : Error) :
  (finished (run c pre) = false ->
   promise (run c (pre ++ (now, ChildError error) :: post))
   = Some (Rejected error))
  /\ (finished (run c pre) = true ->
      promise (run c pre) <> None
      /\ finished (run c (pre ++ post)) = true
      /\ promise (run c (pre ++ post)) = promise (run c pre)
      /\ signals (run c (pre ++ post)) = signals (run c pre)).
Proof.
  pose proof (exec_escalation c (start c) pre (start_escalation c)) as Hesc.
  split.
  - intros Hrunning. pose proof (run_pending c pre Hrunning) as Hnone.
    unfold run in *. rewrite exec_app. cbn [exec].
    assert (finished (step c (exec c (start c) pre) now (ChildError error)) = true
            /\ promise (step c (exec c (start c) pre) now (ChildError error))
               = Some (Rejected error)) as [Hf Hp].
    { unfold step, finalize. rewrite Hrunning. cbn. by rewrite Hnone. }
    by rewrite (exec_finished _ _ _ Hf).
  - intros Hfin. split.
    + by apply (finished_settled c pre (start c)).
    + unfold run in *. rewrite exec_app. by apply exec_finished_frozen.
Qed.

Lemma X16_run_settles_once_witness :
  promise (run hanging_build
             (hanging_trace
              ++ (300100, ChildError (fs_error "EPIPE"))
                 :: [(300200, ChildClose (Some 0))]))
  = Some (Rejected (fs_error "EPIPE")).
Proof.
  destruct (X16_run_settles_once hanging_build hanging_trace
              [(300200, ChildClose (Some 0))] 300100 (fs_error "EPIPE"))
    as [Hreject _].
  apply Hreject. reflexivity.
Defined.

End SupervisorExtras.

Module IdExtras.
Import JsString Js Id IdProofs BookkeepingExtras.

Lemma hex_digit_inj n m :
  (n < 16)%N -> (m < 16)%N -> hex_digit n = hex_digit m -> n = m.
Proof.
  intros Hn Hm H%(f_equal N_of_ascii). unfold hex_digit in H.
  destruct (N.ltb_spec n 10), (N.ltb_spec m 10);
    rewrite !N_ascii_embedding in H by lia; lia.
Qed.

Lemma hex_of_byte_inj b b' : hex_of_byte b = hex_of_byte b' -> b = b'.
Proof.
  unfold hex_of_byte. intros [= Hhigh Hlow].
  pose proof (Byte.to_N_bounded b) as Hb. pose proof (Byte.to_N_bounded b') as Hb'.
  apply hex_digit_inj in Hhigh;
    [| apply N.Div0.div_lt_upper_bound; lia | apply N.Div0.div_lt_upper_bound; lia].
  apply hex_digit_inj in Hlow; [| apply N.mod_lt; lia | apply N.mod_lt; lia].
  assert (Byte.to_N b = Byte.to_N b') as Heq.
  { rewrite (N.div_mod (Byte.to_N b) 16), (N.div_mod (Byte.to_N b') 16) by lia.
    by rewrite Hhigh, Hlow. }
  apply (f_equal Byte.of_N) in Heq. rewrite !Byte.of_to_N in Heq. by injection Heq.
Qed.

Lemma random_part_of_four b0 b1 b2 b3 :
  substring 0 6 (toString_hex [b0; b1; b2; b3])
  = of_chars (hex_of_byte b0 ++ hex_of_byte b1 ++ hex_of_byte b2)%list.
Proof. reflexivity. Qed.

(** X17: of the four random bytes [generateWorksheetId] draws, only the
    first three reach the identifier: the fourth never changes it, and two
    identifiers of the same date are equal exactly when their first three
    random bytes are. *)
Theorem X17_generateWorksheetId_uses_three_random_bytes
    (now : Date) (a0 a1 a2 a3 b0 b1 b2 b3 : Byte.byte) :
  generateWorksheetId now [a0; a1; a2; a3] = generateWorksheetId now [b0; b1; b2; b3]
  <-> a0 = b0 /\ a1 = b1 /\ a2 = b2.
Proof.
  unfold generateWorksheetId. rewrite !random_part_of_four. split.
  - intros H%(f_equal chars). rewrite !chars_app in H.
    do 3 apply app_inv_head in H. rewrite !chars_of_chars in H.
    injection H as H0 H0' H1 H1' H2 H2'.
    split; [| split]; apply hex_of_byte_inj; unfold hex_of_byte; congruence.
  - by intros (-> & -> & ->).
Qed.

End IdExtras.

Module RepositoryExtras.
Import JsString Js FsJson Storage Repository RepositoryProofs.
Import ProcessQueue ProcessQueueProofs BookkeepingExtras.

Lemma find_job_head jobs id :
  Forall (fun job => job <> JNull) jobs ->
  find_job jobs id = Ok (head (entries_for id jobs)).
Proof.
  unfold entries_for. induction 1 as [| job rest Hjob _ IH]; [done |].
  cbn [find_job List.filter]. rewrite (get_strict_nonnull _ _ Hjob). cbn.
  unfold is_entry_for. by destruct (strict_eq_str (get job "worksheet_id") id).
Qed.

Lemma read_queue_entry_well_formed id s :
  QueueWellFormed s ->
  exists entry,
    read_queue_entry id s = (Ok entry, s)
    /\ forall k, get_opt entry k
                 = get_opt (head (entries_for id (pending_jobs s))) k.
Proof.
  intros [Hdoc Hnonnull]. unfold read_queue_entry. unfold_m. unfold read_queue.
  unfold pending_jobs in *. destruct Hdoc as [Hq | [o Hq]]; rewrite Hq in *.
  - eexists. split; [reflexivity | done].
  - change (readJson (Some (File (Serialised (JObj o)))) empty_queue) with (Ok (JObj o)).
    cbv beta iota. cbn [get_strict get].
    destruct (o !! "jobs") as [[| | | | | l |] |];
      try (eexists; split; [reflexivity | done]).
    rewrite (find_job_head _ _ Hnonnull). eexists. split; [reflexivity | done].
Qed.

Lemma trimmed_string_not_blank v t : trimmed_string v = Some t -> is_empty t = false.
Proof.
  unfold trimmed_string. destruct (as_string v) as [s |]; [| done].
  destruct (is_empty (trim s)) eqn:Hblank; [done |]. by intros [= <-].
Qed.

(** X18: when the metadata state of a worksheet is not a usable string
    (missing, not a string, or blank), [getWorksheetStatus] takes the
    state of the first pending entry of the id, trimmed, and [queued] when
    there is no such entry or its state is not a usable string either.
    The state it reports is never blank, and the call writes nothing. *)
Theorem X18_status_state_falls_back_to_the_pending_entry
    (s : Store) (id : string) (md : Json) :
  metadata s !! metadata_name id = Some (File (Serialised md)) ->
  truthy (Some md) = true ->
  QueueWellFormed s ->
  exists status,
    getWorksheetStatus id s = (Ok (Some status), s)
    /\ is_empty (status_state status) = false
    /\ (trimmed_string (get md "state") = None ->
        status_state status
        = default "queued"
            (trimmed_string
               (get_opt (head (entries_for id (pending_jobs s))) "state"))).
Proof.
  intros Hmd Htruthy Hwf.
  destruct (read_queue_entry_well_formed id s Hwf) as (entry & Hentry & Hget).
  unfold getWorksheetStatus. unfold_m. unfold read_metadata.
  cbv beta. rewrite Hmd. cbn [fileExists negb]. cbv beta iota. rewrite Hmd.
  change (readJson (Some (File (Serialised md))) JNull) with (Ok md).
  cbv beta iota. rewrite Htruthy. cbn [negb]. cbv beta iota. rewrite Hentry.
  cbv beta iota. eexists. split; [reflexivity |]. cbn [status_state].
  rewrite Hget. split.
  - destruct (trimmed_string (get md "state")) as [t |] eqn:Ht.
    + by apply trimmed_string_not_blank in Ht.
    + destruct (trimmed_string (get_opt _ "state")) as [t |] eqn:Ht'; [| done].
      by apply trimmed_string_not_blank in Ht'.
  - intros ->. by destruct (trimmed_string (get_opt _ "state")).
Qed.

Lemma X18_status_state_falls_back_to_the_pending_entry_witness :
  exists status,
    getWorksheetStatus "ws_20260228_feed01" blank_state_store
    = (Ok (Some status), blank_state_store)
    /\ is_empty (status_state status) = false.
Proof.
  assert (exists md,
            metadata blank_state_store !! metadata_name "ws_20260228_feed01"
            = Some (File (Serialised md)) /\ truthy (Some md) = true)
    as (md & Hmd & Htruthy).
  { eexists. split; [vm_compute; reflexivity | reflexivity]. }
  assert (QueueWellFormed blank_state_store) as Hwf.
  { split; [right; eexists; reflexivity |]. repeat constructor. discriminate. }
  destruct (X18_status_state_falls_back_to_the_pending_entry blank_state_store
              "ws_20260228_feed01" md Hmd Htruthy Hwf)
    as (status & Hrun & Hblank & _).
  exists status. split; [exact Hrun | exact Hblank].
Defined.

(** *** An upload, and what the status and the queue script see of it *)



Lemma store_artifact_fails id temp s :
  temp = None \/ intake s !! id = Some StrayFile ->
  exists e s1,
    store_artifact id temp s = (Throw e, s1)
    /\ (err_code e = Some "ENOENT" \/ err_code e = Some "EEXIST")
    /\ (intake s !! id = Some StrayFile -> s1 = s /\ err_code e = Some "EEXIST")
    /\ metadata s1 = metadata s /\ queue s1 = queue s
    /\ (forall id' zip, intake s1 !! id' = Some (WorksheetDir (Some zip)) ->
                        intake s !! id' = Some (WorksheetDir (Some zip))).
Proof.
  intros Hcause. unfold store_artifact. unfold_m.
  destruct (intake s !! id) as [[| zip] |] eqn:Hdir.
  - eexists _, _. split; [reflexivity |]. cbn. by repeat split; auto.
  - destruct Hcause as [-> | ?]; [| done].
    eexists _, _. split; [reflexivity |]. cbn. by repeat split; auto.
  - destruct Hcause as [-> | ?]; [| done].
    eexists _, _. split; [reflexivity |]. cbn. repeat split; auto; try done.
    intros id' zip. destruct (decide (id' = id)) as [-> | Hne].
    + by rewrite lookup_insert_eq.
    + by rewrite lookup_insert_ne.
Qed.






(** X20: an upload that fails leaves no record.  When the uploaded file
    is not where the call expects it, or a stray file sits where the
    worksheet's intake folder goes, [enqueueUploadedWorksheet] throws
    (ENOENT or EEXIST) before it writes the metadata record or the pending
    list: both are unchanged, the status of every worksheet is what it
    was, and no intake folder gains an archive. *)
Theorem X20_failed_upload_leaves_no_record (a : EnqueueArgs) (s : Store) :
  tempFile a = None \/ intake s !! worksheetId a = Some StrayFile ->
  exists e s',
    enqueueUploadedWorksheet a s = (Throw e, s')
    /\ (err_code e = Some "ENOENT" \/ err_code e = Some "EEXIST")
    /\ metadata s' = metadata s /\ queue s' = queue s
    /\ (forall id, getWorksheetStatus id s' = (fst (getWorksheetStatus id s), s'))
    /\ (forall id zip, intake s' !! id = Some (WorksheetDir (Some zip)) ->
                       intake s !! id = Some (WorksheetDir (Some zip))).
Proof.
  intros Hcause.
  destruct (store_artifact_fails (worksheetId a) (tempFile a) s Hcause)
    as (e & s1 & Hsa & Hcode & _ & Hmd & Hq & Hzip).
  exists e, s1. unfold enqueueUploadedWorksheet, mbind, M_bind, bind. rewrite Hsa.
  split; [done |]. split; [done |]. split; [done |]. split; [done |].
  split; [| done]. intros id.
  pose proof (read_queue_entry_store id s1) as Hstore1.
  unfold getWorksheetStatus. unfold_m. unfold read_metadata, read_queue_entry.
  unfold_m. unfold read_queue. cbv beta. rewrite Hmd.
  destruct (fileExists (metadata s !! metadata_name id)); [| done].
  cbn [negb]. cbv beta iota. rewrite Hmd.
  destruct (readJson (metadata s !! metadata_name id) JNull) as [md |]; [| done].
  cbv beta iota. destruct (truthy (Some md)); [| done]. cbn [negb]. cbv beta iota.
  rewrite Hq.
  destruct (readJson (queue s) empty_queue) as [qdoc |]; [| done]. cbv beta iota.
  destruct (get_strict qdoc "jobs") as [jobs |]; [| done]. cbv beta iota.
  by destruct (match jobs with Some (JArr l) => find_job l id | _ => Ok (Some JNull) end).
Qed.

Lemma X20_failed_upload_leaves_no_record_witness :
  exists e s',
    enqueueUploadedWorksheet
      (mkEnqueueArgs "ws_20260228_c0ffee" (Some (JStr "First")) None None None
         "2026-02-28T10:00:00.000Z") fresh_store = (Throw e, s')
    /\ metadata s' = metadata fresh_store /\ queue s' = queue fresh_store.
Proof.
  destruct (X20_failed_upload_leaves_no_record
              (mkEnqueueArgs "ws_20260228_c0ffee" (Some (JStr "First")) None None None
                 "2026-02-28T10:00:00.000Z") fresh_store)
    as (e & s' & Hrun & _ & Hmd & Hq & _).
  - left. reflexivity.
  - exists e, s'. split; [exact Hrun |]. split; [exact Hmd | exact Hq].
Defined.



End RepositoryExtras.

Module UploadExtras.
Import JsString Regex Js Storage Upload RegexFacts IdProofs BookkeepingExtras.

(** *** Character classes, repeated *)





(** *** [sanitizeOptionalString] *)










End UploadExtras.

Module WorkspaceExtras.
Import JsString Regex Js FsJson Storage Config Workspace.
Import RegexFacts IdProofs ConfigExtras.

(** *** [sanitizeGuardrails] *)




(** *** The scan of the text files *)

Lemma is_prefix_spec needle : forall hay,
  is_prefix needle hay = true <-> exists post, hay = (needle ++ post)%list.
Proof.
  induction needle as [| c needle IH]; intros hay.
  - split; [intros _; by exists hay | by destruct hay].
  - destruct hay as [| d hay]; cbn [is_prefix].
    + split; [done | by intros [post ?]].
    + rewrite andb_true_iff, IH, Ascii.eqb_eq. split.
      * intros [-> [post ->]]. by exists post.
      * intros [post [= -> ->]]. split; [done | by exists post].
Qed.

Lemma includes_spec content needle :
  includes content needle = true <-> contains content needle.
Proof.
  unfold includes, contains. generalize (chars needle) as n.
  induction (chars content) as [| c hay IH]; intros n; cbn [includes_chars].
  - rewrite orb_false_r, is_prefix_spec. split.
    + intros [post Hpost]. by exists [], post.
    + intros (pre & post & Heq). symmetry in Heq.
      apply app_eq_nil in Heq as [-> Heq]. by exists post.
  - rewrite orb_true_iff, is_prefix_spec, IH. split.
    + intros [[post Hpost] | (pre & post & ->)].
      * by exists [], post.
      * by exists (c :: pre), post.
    + intros ([| x pre] & post & Heq).
      * left. by exists post.
      * injection Heq as <- ->. right. by exists pre, post.
Qed.

Lemma test_str_i word content :
  test (str_i word) content = true
  <-> exists pre x post,
        chars content = (pre ++ x ++ post)%list
        /\ eqb_ci_chars (chars word) x = true.
Proof.
  unfold test, str_i. rewrite search_lang.
  by setoid_rewrite lang_seq_lit_i.
Qed.

Lemma forbidden_spec content :
  existsb (fun re => test re content) forbidden = true
  <-> mentions content forbidden_words.
Proof.
  unfold forbidden, forbidden_words, mentions. cbn [existsb].
  rewrite orb_false_r, !orb_true_iff, !test_str_i. split.
  - intros [(pre & x & post & ? & ?) | [(pre & x & post & ? & ?) | (pre & x & post & ? & ?)]];
      eexists _, pre, x, post; (split; [| done]); set_solver.
  - intros (word & pre & x & post & Hword & ? & ?).
    apply elem_of_cons in Hword as [-> | Hword]; [left; by exists pre, x, post |].
    apply elem_of_cons in Hword as [-> | Hword]; [right; left; by exists pre, x, post |].
    apply list_elem_of_singleton in Hword as ->. right; right. by exists pre, x, post.
Qed.

Lemma matches_suffix_lang r : forall s,
  matches_suffix r s = true <-> exists stem w, s = (stem ++ w)%list /\ lang r w.
Proof.
  induction s as [| c s IH]; cbn [matches_suffix].
  - rewrite orb_false_r, matches_lang. split.
    + intros Hr. by exists [], [].
    + intros (stem & w & Heq & Hw). symmetry in Heq.
      by apply app_eq_nil in Heq as [_ ->].
  - rewrite orb_true_iff, matches_lang, IH. split.
    + intros [Hr | (stem & w & -> & Hw)].
      * by exists [], (c :: s).
      * by exists (c :: stem), w.
    + intros ([| x stem] & w & Heq & Hw).
      * left. cbn in Heq. by subst w.
      * injection Heq as <- ->. right. by exists stem, w.
Qed.

Lemma lit_dot c : eqb_ci "." c = true <-> c = "."%char.
Proof.
  destruct c as [[] [] [] [] [] [] [] []]; vm_compute;
    split; intros H; try discriminate; tauto.
Qed.

Lemma isTextFile_spec name : isTextFile name = true <-> has_text_extension name.
Proof.
  unfold isTextFile, has_text_extension, textFilePattern, text_extensions.
  rewrite matches_suffix_lang. split.
  - intros (stem & w & -> & (dot & ext & -> & Hdot & Hext)%lang_Cat).
    unfold lit_i in Hdot. apply lang_Chr in Hdot as (c & -> & ->%lit_dot).
    exists stem, ext.
    repeat (apply lang_Alt in Hext as [Hext | Hext];
            [apply lang_seq_lit_i in Hext; eexists; split; [done |];
             split; [| exact Hext]; set_solver |]).
    apply lang_seq_lit_i in Hext. eexists. split; [done |].
    split; [| exact Hext]. set_solver.
  - intros (stem & ext & word & -> & Hword & Hext).
    exists stem, ("."%char :: ext). split; [done |].
    apply lang_Cat. exists ["."%char], ext. split; [done |].
    split; [unfold lit_i; apply lang_Chr; exists "."%char; by rewrite lit_dot |].
    repeat (apply elem_of_cons in Hword as [-> | Hword];
            [repeat (first [by apply lang_seq_lit_i
                           | apply lang_alt_l; by apply lang_seq_lit_i
                           | apply lang_alt_r]) |]).
    by apply elem_of_nil in Hword.
Qed.

Lemma walk_tree_dir full name entries :
  walk_tree full name (TDir (Ok entries)) = walk full entries.
Proof. reflexivity. Qed.

Lemma walk_cons dir n t rest :
  walk dir ((n, t) :: rest)
  = files ← walk_tree (join_path dir n) n t; more ← walk dir rest; Ok (files ++ more)%list.
Proof. reflexivity. Qed.

Lemma Tree_nested_ind (P : Tree -> Prop) (Q : list (string * Tree) -> Prop) :
  (forall content, P (TFile content)) ->
  (forall error, P (TDir (Throw error))) ->
  (forall sub, Q sub -> P (TDir (Ok sub))) ->
  Q [] ->
  (forall n t rest, P t -> Q rest -> Q ((n, t) :: rest)) ->
  forall t, P t.
Proof.
  intros Hfile Hthrow Hdir Hnil Hcons.
  refine (fix go (t : Tree) : P t :=
            match t with
            | TFile content => Hfile content
            | TDir (Throw error) => Hthrow error
            | TDir (Ok sub) =>
                Hdir sub
                  ((fix go_entries (entries : list (string * Tree)) : Q entries :=
                      match entries with
                      | [] => Hnil
                      | (n, t') :: rest => Hcons n t' rest (go t') (go_entries rest)
                      end) sub)
            end).
Qed.

Lemma entries_ind (Q : list (string * Tree) -> Prop) :
  Q [] ->
  (forall n content rest, Q rest -> Q ((n, TFile content) :: rest)) ->
  (forall n error rest, Q rest -> Q ((n, TDir (Throw error)) :: rest)) ->
  (forall n sub rest, Q sub -> Q rest -> Q ((n, TDir (Ok sub)) :: rest)) ->
  forall entries, Q entries.
Proof.
  intros Hnil Hfile Hthrow Hdir entries.
  apply (Tree_nested_ind
           (fun t => match t with TDir (Ok sub) => Q sub | _ => True end) Q
           (fun _ => I) (fun _ => I) (fun _ H => H) Hnil) with (t := TDir (Ok entries)).
  intros n [content | [sub | error]] rest Ht Hrest; auto.
Qed.

Lemma text_file_in_cons dir n t rest path read :
  text_file_in dir ((n, t) :: rest) path read
  <-> match t with
      | TFile content =>
          has_text_extension n /\ path = join_path dir n /\ read = content
      | TDir (Ok sub) => text_file_in (join_path dir n) sub path read
      | TDir (Throw _) => False
      end
      \/ text_file_in dir rest path read.
Proof.
  split.
  - intros H. inversion H as [name c Hc Hn | name sub p c Hc Hbelow]; subst.
    + apply elem_of_cons in Hc as [[= -> <-] | Hc]; [by left |].
      right. by apply text_file_here.
    + apply elem_of_cons in Hc as [[= -> <-] | Hc]; [by left |].
      right. by eapply text_file_below.
  - intros [Hhere | Hrest].
    + destruct t as [content | [sub | error]]; [| | done].
      * destruct Hhere as (Hn & -> & ->).
        apply text_file_here; [apply list_elem_of_here | done].
      * eapply text_file_below; [apply list_elem_of_here | done].
    + inversion Hrest as [name c Hc Hn | name sub p c Hc Hbelow]; subst.
      * apply text_file_here; [by apply elem_of_cons; right | done].
      * eapply text_file_below; [by apply elem_of_cons; right | done].
Qed.

Lemma walk_spec entries : forall dir files,
  walk dir entries = Ok files ->
  listable entries
  /\ forall path read, (path, read) ∈ files <-> text_file_in dir entries path read.
Proof.
  induction entries as [| n content rest IH | n error rest IH | n sub rest IHsub IH]
    using entries_ind; intros dir files.
  - intros [= <-]. split; [constructor |]. intros path read. split.
    + by intros ?%elem_of_nil.
    + intros H. inversion H as [? ? Hin | ? ? ? ? Hin]; by apply elem_of_nil in Hin.
  - rewrite walk_cons. cbn.
    destruct (walk dir rest) as [more |] eqn:Hmore; [| discriminate].
    cbn. intros [= <-]. destruct (IH dir more Hmore) as [Hlistable Hrest].
    split; [by constructor |]. intros path read.
    rewrite text_file_in_cons, elem_of_app, Hrest, <- isTextFile_spec.
    destruct (isTextFile n).
    + rewrite list_elem_of_singleton. split; intros [H | H]; auto.
      * left. by injection H as -> ->.
      * left. by destruct H as (_ & -> & ->).
    + split; intros [H | H]; auto; [by apply elem_of_nil in H | by destruct H].
  - rewrite walk_cons. discriminate.
  - rewrite walk_cons, walk_tree_dir.
    destruct (walk (join_path dir n) sub) as [here |] eqn:Hhere; [| discriminate].
    cbn. destruct (walk dir rest) as [more |] eqn:Hmore; [| discriminate].
    cbn. intros [= <-].
    destruct (IH dir more Hmore) as [Hlistable Hrest].
    destruct (IHsub (join_path dir n) here Hhere) as [Hsub_listable Hsub].
    split; [by constructor |]. intros path read.
    by rewrite text_file_in_cons, elem_of_app, Hrest, Hsub.
Qed.

Lemma walk_listable entries :
  listable entries -> forall dir, exists files, walk dir entries = Ok files.
Proof.
  induction 1 as [| name content rest _ IHrest | name sub rest _ IHsub _ IHrest];
    intros dir.
  - by exists [].
  - destruct (IHrest dir) as [more Hmore]. rewrite walk_cons. cbn.
    rewrite Hmore. by eexists.
  - destruct (IHrest dir) as [more Hmore].
    destruct (IHsub (join_path dir name)) as [here Hhere].
    rewrite walk_cons, walk_tree_dir, Hhere. cbn. rewrite Hmore. by eexists.
Qed.

Lemma scan_files_spec files : forall hook hint,
  match scan_files files hook hint with
  | Ok (hook', hint') =>
      (forall path read, (path, read) ∈ files ->
         exists content, read = Ok content /\ ~ mentions content forbidden_words)
      /\ (hook' = true <->
          hook = true \/ exists path content,
                           (path, Ok content) ∈ files
                           /\ contains content "/api/runtime/ai")
      /\ (hint' = true <->
          hint = true \/ exists path content,
                           (path, Ok content) ∈ files /\ contains content "gpt-4.1")
  | Throw _ =>
      exists path read,
        (path, read) ∈ files
        /\ forall content, read = Ok content -> mentions content forbidden_words
  end.
Proof.
  induction files as [| [file read] rest IH]; intros hook hint; cbn [scan_files].
  - split; [by intros ? ? ?%elem_of_nil |].
    split; (split; [by left | intros [? | (? & ? & ?%elem_of_nil & _)]; done]).
  - destruct read as [content | error].
    2:{ exists file, (Throw error). split; [apply list_elem_of_here | discriminate]. }
    change (Ok content ≫= ?k) with (k content). cbv beta zeta.
    destruct (existsb (fun re => test re content) forbidden) eqn:Hforbidden.
    { exists file, (Ok content). split; [apply list_elem_of_here |].
      intros ? [= <-]. by apply forbidden_spec. }
    specialize (IH (hook || includes content "/api/runtime/ai")
                   (hint || includes content "gpt-4.1")).
    destruct (scan_files rest _ _) as [[hook' hint'] | error].
    + destruct IH as (Hclean & Hhook & Hhint). split; [| split].
      * intros path read [[= -> ->] | Hin]%elem_of_cons; [| by apply (Hclean path)].
        exists content. split; [done |]. rewrite <- forbidden_spec. congruence.
      * rewrite Hhook, orb_true_iff, includes_spec. split.
        -- intros [[? | ?] | (path & c & Hin & Hc)]; [by left | |].
           ++ right. exists file, content. split; [apply list_elem_of_here | done].
           ++ right. exists path, c. split; [by apply elem_of_cons; right | done].
        -- intros [? | (path & c & [[= -> ->] | Hin]%elem_of_cons & Hc)];
             [by left; left | by left; right |].
           right. by exists path, c.
      * rewrite Hhint, orb_true_iff, includes_spec. split.
        -- intros [[? | ?] | (path & c & Hin & Hc)]; [by left | |].
           ++ right. exists file, content. split; [apply list_elem_of_here | done].
           ++ right. exists path, c. split; [by apply elem_of_cons; right | done].
        -- intros [? | (path & c & [[= -> ->] | Hin]%elem_of_cons & Hc)];
             [by left; left | by left; right |].
           right. by exists path, c.
    + destruct IH as (path & read & Hin & Hbad).
      exists path, read. split; [by apply elem_of_cons; right | done].
Qed.

(** X24: the scan of [verifyShippableOutput] accepts an output exactly
    when every directory below it can be listed, every file whose name
    ends in .js, .mjs, .cjs, .html, .ts, .tsx, .json or .map (in any
    letter case) can be read and mentions none of
    generativelanguage.googleapis.com, @google/genai and GoogleGenAI (in
    any letter case), one of those files contains /api/runtime/ai and one
    contains gpt-4.1.  Files with other names are never read. *)
Theorem X24_verified_output_has_no_Gemini_reference
    (outDir : string) (entries : list (string * Tree)) :
  verify_text_files outDir (Ok entries) = Ok tt
  <-> listable entries
      /\ (forall path read,
            text_file_in outDir entries path read ->
            exists content, read = Ok content /\ ~ mentions content forbidden_words)
      /\ (exists path content,
            text_file_in outDir entries path (Ok content)
            /\ contains content "/api/runtime/ai")
      /\ (exists path content,
            text_file_in outDir entries path (Ok content)
            /\ contains content "gpt-4.1").
Proof.
  unfold verify_text_files, gatherTextFiles. cbn. split.
  - destruct (walk outDir entries) as [files |] eqn:Hwalk; [| discriminate].
    destruct (walk_spec entries outDir files Hwalk) as [Hlistable Hfiles].
    pose proof (scan_files_spec files false false) as Hscan. cbn.
    destruct (scan_files files false false) as [[hook hint] |]; [| discriminate].
    cbn. destruct Hscan as (Hclean & Hhook & Hhint).
    destruct hook; [| discriminate]. destruct hint; [| discriminate]. intros _.
    split; [done |]. split.
    + intros path read Hin. apply (Hclean path read). by apply Hfiles.
    + split.
      * destruct Hhook as [[? | (path & c & Hin & Hc)] _]; [done | done |].
        exists path, c. split; [by apply Hfiles | done].
      * destruct Hhint as [[? | (path & c & Hin & Hc)] _]; [done | done |].
        exists path, c. split; [by apply Hfiles | done].
  - intros (Hlistable & Hclean & (p1 & c1 & Hin1 & Hc1) & (p2 & c2 & Hin2 & Hc2)).
    destruct (walk_listable entries Hlistable outDir) as [files Hwalk].
    rewrite Hwalk. cbn.
    destruct (walk_spec entries outDir files Hwalk) as [_ Hfiles].
    pose proof (scan_files_spec files false false) as Hscan.
    destruct (scan_files files false false) as [[hook hint] | error].
    + destruct Hscan as (_ & Hhook & Hhint). cbn.
      assert (hook = true) as ->.
      { apply Hhook. right. exists p1, c1. split; [by apply Hfiles | done]. }
      assert (hint = true) as ->.
      { apply Hhint. right. exists p2, c2. split; [by apply Hfiles | done]. }
      reflexivity.
    + destruct Hscan as (path & read & Hin & Hbad). exfalso.
      destruct (Hclean path read) as (content & -> & Hok); [by apply Hfiles |].
      by apply Hok, Hbad.
Qed.

Example clean_output_is_verified : verify_text_files "out" (Ok clean_output) = Ok tt.
Proof. vm_compute. reflexivity. Qed.

End WorkspaceExtras.

Module ListingExtras.
Import JsString Js Id FsJson Storage Listing.
Import IdProofs ProcessQueue ProcessQueueProofs BookkeepingExtras.

Lemma substring_all b : substring 0 (String.length b) b = b.
Proof. induction b as [| c b IH]; [done |]. cbn. by rewrite IH. Qed.

Lemma substring_suffix a b :
  substring (String.length a) (String.length b) (a +:+ b) = b.
Proof.
  induction a as [| c a IH]; [apply substring_all |].
  change (String c a +:+ b) with (String c (a +:+ b)). cbn. apply IH.
Qed.

Lemma length_app_string a b :
  String.length (a +:+ b) = (String.length a + String.length b)%nat.
Proof. by rewrite !length_chars, chars_app, length_app. Qed.

Lemma endsWith_app a b : endsWith (a +:+ b) b = true.
Proof.
  unfold endsWith. rewrite length_app_string.
  replace (String.length a + String.length b - String.length b)%nat
    with (String.length a) by lia.
  rewrite substring_suffix, String.eqb_refl, andb_true_r.
  apply Nat.leb_le. lia.
Qed.

Lemma drop_last_app a b : drop_last (String.length b) (a +:+ b) = a.
Proof.
  unfold drop_last. rewrite length_app_string, chars_app.
  replace (String.length a + String.length b - String.length b)%nat
    with (length (chars a)) by (rewrite <- length_chars; lia).
  rewrite take_app_length. apply of_chars_chars.
Qed.

Lemma listed_job_valid job id :
  listed_job job = Some id -> isWorksheetId (Some (JStr id)) = true.
Proof.
  unfold listed_job.
  destruct (isWorksheetId (get_opt (Some job) "worksheet_id")) eqn:Hvalid; [| done].
  destruct (get_opt (Some job) "worksheet_id") as [[] |]; try done.
  by intros [= <-].
Qed.

Lemma listed_metadata_valid entry id :
  listed_metadata entry = Some id -> isWorksheetId (Some (JStr id)) = true.
Proof.
  destruct entry as [name node]. unfold listed_metadata.
  destruct (negb (isFile node) || negb (endsWith name ".json")); [done |].
  destruct (isWorksheetId (Some (JStr (drop_last _ name)))) eqn:Hvalid; [| done].
  by intros [= <-].
Qed.

Lemma listed_directory_valid entry id :
  listed_directory entry = Some id -> isWorksheetId (Some (JStr id)) = true.
Proof.
  destruct entry as [name isDir]. unfold listed_directory.
  destruct isDir; [| done]. cbn [andb].
  destruct (isWorksheetId (Some (JStr name))) eqn:Hvalid; [| done].
  by intros [= <-].
Qed.

Lemma directory_ids_valid entries id :
  id ∈ directory_ids entries -> isWorksheetId (Some (JStr id)) = true.
Proof.
  destruct entries as [entries |]; [| by intros ?%elem_of_nil].
  intros (entry & _ & Hentry)%list_elem_of_omap. by eapply listed_directory_valid.
Qed.

(** X25: [listWorksheetIds] never fails and lists each id once; every id
    it lists is accepted by [isWorksheetId].  Whatever the pending list
    holds (it may be missing or not parse), an accepted id is listed when
    [metadata/] can be listed and holds a file [<id>.json], and when
    [intake/] can be listed and holds a folder of that name. *)
Theorem X25_listWorksheetIds_lists_valid_ids_once
    (s : Store) (shippable : Res (list (string * bool))) :
  NoDup (listWorksheetIds s shippable)
  /\ (forall id, id ∈ listWorksheetIds s shippable ->
                 isWorksheetId (Some (JStr id)) = true)
  /\ (forall id node,
        isWorksheetId (Some (JStr id)) = true ->
        metadata_readdir s = None ->
        metadata s !! metadata_name id = Some node -> isFile node = true ->
        id ∈ listWorksheetIds s shippable)
  /\ (forall id zip,
        isWorksheetId (Some (JStr id)) = true ->
        intake_readdir s = None ->
        intake s !! id = Some (WorksheetDir zip) ->
        id ∈ listWorksheetIds s shippable).
Proof.
  unfold listWorksheetIds. split; [apply DiscoveryExtras.NoDup_dedupe |].
  split; [| split].
  - intros id. rewrite elem_of_dedupe, !elem_of_app.
    intros [Hq | [Hm | [Hi | Hs]]].
    + unfold queue_ids in Hq.
      destruct (readFile (queue s)) as [raw |]; [| by apply elem_of_nil in Hq].
      cbn in Hq. destruct (JSON_parse raw) as [doc |]; [| by apply elem_of_nil in Hq].
      cbn in Hq. destruct (get_strict doc "jobs") as [jobs |];
        [| by apply elem_of_nil in Hq].
      cbn in Hq. destruct jobs as [[| | | | | l |] |]; try by apply elem_of_nil in Hq.
      apply list_elem_of_omap in Hq as (job & _ & Hjob). by eapply listed_job_valid.
    + unfold metadata_ids in Hm.
      destruct (metadata_readdir s); [by apply elem_of_nil in Hm |].
      apply list_elem_of_omap in Hm as (entry & _ & Hentry).
      by eapply listed_metadata_valid.
    + by eapply directory_ids_valid.
    + by eapply directory_ids_valid.
  - intros id node Hvalid Hlist Hnode Hfile.
    rewrite elem_of_dedupe, !elem_of_app. right. left.
    unfold metadata_ids. rewrite Hlist. apply list_elem_of_omap.
    exists (metadata_name id, node). split; [by apply elem_of_map_to_list |].
    unfold listed_metadata, metadata_name.
    rewrite Hfile, endsWith_app, drop_last_app. cbn [negb orb]. by rewrite Hvalid.
  - intros id zip Hvalid Hlist Hdir.
    rewrite elem_of_dedupe, !elem_of_app. right. right. left.
    unfold intake_listing. rewrite Hlist. cbn [directory_ids].
    apply list_elem_of_omap. exists (id, true). split.
    + apply list_elem_of_fmap. exists (id, WorksheetDir zip).
      split; [done | by apply elem_of_map_to_list].
    + unfold listed_directory. cbn [andb]. by rewrite Hvalid.
Qed.

End ListingExtras.

